(** * Flutter Assets Generator: a shallow embedding of [src/extension.ts]

    The development follows the source file function by function:
    - the JavaScript string and array primitives the extension relies on;
    - [formatPropertyName], the identifier derivation;
    - [generateClassRecursively] and [generateAllAssetsClasses], the Dart
      code generator together with its stale-file cleanup;
    - [syncPubspecYaml], the manifest synchronizer;
    - [debouncedSync] and [runFullSync], the coordinator, as an event-driven
      state machine.

    Strings are byte strings ([string]); case mapping and character classes
    are the ASCII ones.  Paths follow the POSIX rules of Node's [path]
    module.  The asset tree consists of regular files and directories. *)

From Stdlib Require Import Ascii String List Bool Arith Lia.
From stdpp Require Import base option list strings gmap fin_maps.

#[local] Set Warnings "-register-all".
Local Open Scope char_scope.

(** ** Characters *)

Module Char.

Definition code (c : ascii) : nat := nat_of_ascii c.

Definition between (lo hi : nat) (c : ascii) : bool :=
  Nat.leb lo (code c) && Nat.leb (code c) hi.

(** [\d] *)
Definition isDigit : ascii -> bool := between 48 57.
Definition isLower : ascii -> bool := between 97 122.
Definition isUpper : ascii -> bool := between 65 90.
Definition isLetter (c : ascii) : bool := isLower c || isUpper c.
(** [[a-zA-Z0-9]] *)
Definition isAlnum (c : ascii) : bool := isLetter c || isDigit c.

Definition toUpperCase (c : ascii) : ascii :=
  if isLower c then ascii_of_nat (code c - 32) else c.
Definition toLowerCase (c : ascii) : ascii :=
  if isUpper c then ascii_of_nat (code c + 32) else c.

(** The characters the regular expression [.] refuses. *)
Definition isLineTerminator (c : ascii) : bool :=
  Nat.eqb (code c) 10 || Nat.eqb (code c) 13.

(** What [String.prototype.trim] strips. *)
Definition isSpace (c : ascii) : bool :=
  between 9 13 c || Nat.eqb (code c) 32.

Definition eqb (a b : ascii) : bool := Ascii.eqb a b.

End Char.

Global Arguments Char.eqb : simpl never.

(** ** Strings *)

Module Str.

Fixpoint filter (p : ascii -> bool) (s : string) : string :=
  match s with
  | EmptyString => EmptyString
  | String c r => if p c then String c (filter p r) else filter p r
  end.

Fixpoint map (f : ascii -> ascii) (s : string) : string :=
  match s with
  | EmptyString => EmptyString
  | String c r => String (f c) (map f r)
  end.

Fixpoint all (p : ascii -> bool) (s : string) : bool :=
  match s with
  | EmptyString => true
  | String c r => p c && all p r
  end.

Definition has (p : ascii -> bool) (s : string) : bool :=
  negb (all (fun c => negb (p c)) s).

(** [s.startsWith(pre)] *)
Fixpoint startsWith (s pre : string) : bool :=
  match pre, s with
  | EmptyString, _ => true
  | String a pre', String b s' => Char.eqb a b && startsWith s' pre'
  | String _ _, EmptyString => false
  end.

(** [s.endsWith(suf)]: some tail of [s] is [suf]. *)
Fixpoint endsWith (s suf : string) : bool :=
  String.eqb s suf ||
  match s with
  | EmptyString => false
  | String _ r => endsWith r suf
  end.

Definition toLowerCase : string -> string := map Char.toLowerCase.

(** [s.charAt(0).toUpperCase() + s.slice(1)] *)
Definition capitalize (s : string) : string :=
  match s with
  | EmptyString => EmptyString
  | String c r => String (Char.toUpperCase c) r
  end.

(** [s.charAt(0).toLowerCase() + s.slice(1)] *)
Definition uncapitalize (s : string) : string :=
  match s with
  | EmptyString => EmptyString
  | String c r => String (Char.toLowerCase c) r
  end.

(** [s.slice(0, -1)] *)
Fixpoint dropLast (s : string) : string :=
  match s with
  | EmptyString => EmptyString
  | String c EmptyString => EmptyString
  | String c r => String c (dropLast r)
  end.

Fixpoint dropWhile (p : ascii -> bool) (s : string) : string :=
  match s with
  | EmptyString => EmptyString
  | String c r => if p c then dropWhile p r else s
  end.

(** Drops the trailing characters satisfying [p]. *)
Fixpoint dropWhileEnd (p : ascii -> bool) (s : string) : string :=
  match s with
  | EmptyString => EmptyString
  | String c r =>
      match dropWhileEnd p r with
      | EmptyString => if p c then EmptyString else String c EmptyString
      | r' => String c r'
      end
  end.

(** [s.trim()] *)
Definition trim (s : string) : string :=
  dropWhileEnd Char.isSpace (dropWhile Char.isSpace s).

(** [s.split(sep)] for a one-character separator: never empty. *)
Fixpoint split (sep : ascii) (s : string) : list string :=
  match s with
  | EmptyString => [EmptyString]
  | String c r =>
      if Char.eqb c sep then EmptyString :: split sep r
      else match split sep r with
           | [] => [String c EmptyString]
           | w :: ws => String c w :: ws
           end
  end.

(** [parts.join(sep)] *)
Fixpoint join (sep : string) (parts : list string) : string :=
  match parts with
  | [] => EmptyString
  | [w] => w
  | w :: ws => w +:+ sep +:+ join sep ws
  end.

(** [l.includes(x)] *)
Definition includes (l : list string) (x : string) : bool :=
  existsb (String.eqb x) l.

End Str.

(** ** Identifier derivation: [formatPropertyName] *)

Definition isDelimiter (c : ascii) : bool :=
  Char.eqb c "-" || Char.eqb c "_".

(** [name.replace(/[-_]+(.)?/g, (_, c) => c ? c.toUpperCase() : '')].
    [afterRun] records that a run of delimiters has just been consumed:
    the character that follows is captured (and upper-cased) unless it is a
    line terminator, which [.] does not match and which is then copied.
    The upper-casing is that of ASCII, which is what [toUpperCase] does to
    an ASCII character; for a captured character outside ASCII the source
    may yield other text, ASCII letters included (U+00DF gives [SS]);
    the steps that follow, [afterCamelCase], then strip whatever is not an
    ASCII letter or digit. *)
Fixpoint camelize (afterRun : bool) (s : string) : string :=
  match s with
  | EmptyString => EmptyString
  | String c r =>
      if isDelimiter c then camelize true r
      else if afterRun && negb (Char.isLineTerminator c)
           then String (Char.toUpperCase c) (camelize false r)
           else String c (camelize false r)
  end.

Definition startsWithDigit (s : string) : bool :=
  match s with
  | EmptyString => false
  | String c _ => Char.isDigit c
  end.

Definition dartKeywords : list string :=
  ["class"; "switch"; "return"; "default"; "break"; "if"; "else"; "for";
   "var"; "final"; "const"]%string.

Definition formatPropertyName (name : string) : string :=
  let camelCase := Str.filter Char.isAlnum (camelize false name) in
  let camelCase := Str.uncapitalize camelCase in
  let camelCase := if startsWithDigit camelCase then "item" +:+ camelCase else camelCase in
  let camelCase :=
    if Str.includes dartKeywords camelCase then camelCase +:+ "Asset" else camelCase in
  match camelCase with
  | EmptyString => "unknown"%string
  | _ => camelCase
  end.

(** A Dart identifier the generator may emit: non-empty, starting with an
    ASCII letter, made of [[A-Za-z0-9]] only, and not a reserved word. *)
Definition wellFormedIdentifier (s : string) : Prop :=
  s <> EmptyString /\
  (exists c r, s = String c r /\ Char.isLetter c = true) /\
  Str.all Char.isAlnum s = true /\
  Str.includes dartKeywords s = false.


(** ** The asset tree

    What [fs.readdirSync(dir, { withFileTypes: true })] returns, read
    recursively: the entries of a directory in enumeration order. *)

Inductive node : Type :=
| File (name : string)
| Dir (name : string) (children : list node).

Definition nodeName (n : node) : string :=
  match n with File name | Dir name _ => name end.

Definition isFile (n : node) : bool :=
  match n with File _ => true | Dir _ _ => false end.

Definition isDirectory (n : node) : bool :=
  match n with File _ => false | Dir _ _ => true end.

Definition children (n : node) : list node :=
  match n with File _ => [] | Dir _ items => items end.

(** [/^\d\.\dx$/.test(name)] *)
Definition isVariantName (name : string) : bool :=
  match name with
  | String a (String b (String c (String d EmptyString))) =>
      Char.isDigit a && Char.eqb b "." && Char.isDigit c && Char.eqb d "x"
  | _ => false
  end.

(** [item.isFile() && !item.name.startsWith('.')] *)
Definition isListedFile (item : node) : bool :=
  isFile item && negb (Str.startsWith (nodeName item) ".").

(** [item.isDirectory() && !/^\d\.\dx$/.test(item.name)] *)
Definition isListedDir (item : node) : bool :=
  isDirectory item && negb (isVariantName (nodeName item)).

(** Induction over a tree, with the hypothesis for all entries of a
    directory. *)
Definition node_nested_ind (P : node -> Prop)
    (HFile : forall name, P (File name))
    (HDir : forall name items, Forall P items -> P (Dir name items))
  : forall n, P n :=
  fix go (n : node) : P n :=
    match n with
    | File name => HFile name
    | Dir name items =>
        HDir name items
          ((fix all (l : list node) : Forall P l :=
              match l with
              | [] => List.Forall_nil P
              | x :: rest => @List.Forall_cons _ P x rest (go x) (all rest)
              end) items)
    end.

(** ** The code generator *)

Definition nl : string := String "010" EmptyString.

(** [f(x1) + f(x2) + ...]: a loop appending one piece of text per element. *)
Definition concatMap {A} (f : A -> string) (l : list A) : string :=
  foldr (fun x acc => f x +:+ acc) EmptyString l.
Global Arguments concatMap : simpl never.

(** [relativePath.replace(/\\/g, '/')] *)
Definition forwardSlash : string -> string :=
  Str.map (fun c => if Char.eqb c "092" then "/" else c).

(** [name.replace(/\.[^/.]+$/, '')]: the match starts at the first dot that
    is followed, up to the end, by one or more characters other than
    [/] and [.]. *)
Definition isExtensionTail (r : string) : bool :=
  match r with
  | EmptyString => false
  | _ => Str.all (fun c => negb (Char.eqb c "/" || Char.eqb c ".")) r
  end.

Fixpoint stripExtension (s : string) : string :=
  match s with
  | EmptyString => EmptyString
  | String c r =>
      if Char.eqb c "." && isExtensionTail r then EmptyString
      else String c (stripExtension r)
  end.

Definition nestedClassName (className dirName : string) : string :=
  className +:+ Str.capitalize dirName.

Definition nestedRelativePath (relativePath dirName : string) : string :=
  relativePath +:+ "/" +:+ dirName.

(** The text appended to [classContent] for a subdirectory. *)
Definition classPropertyLine (className : string) (dir : node) : string :=
  let nestedPropName := formatPropertyName (nodeName dir) in
  let nested := nestedClassName className (nodeName dir) in
  "  final " +:+ nested +:+ " " +:+ nestedPropName +:+ " = const " +:+ nested
    +:+ "();" +:+ nl.

Definition assetValue (relativePath fileName : string) : string :=
  "assets/" +:+ forwardSlash relativePath +:+ "/" +:+ fileName.

(** The text appended to [classContent] for a file. *)
Definition stringPropertyLine (relativePath : string) (file : node) : string :=
  let propName := formatPropertyName (stripExtension (nodeName file)) in
  let isSvg := Str.endsWith (Str.toLowerCase (nodeName file)) ".svg" in
  let comment := if isSvg then " // SVG File"%string else EmptyString in
  "  final String " +:+ propName +:+ " = '" +:+ assetValue relativePath (nodeName file)
    +:+ "';" +:+ comment +:+ nl.

Definition classHeader (className : string) : string :=
  "class " +:+ className +:+ " {" +:+ nl +:+
  "  const " +:+ className +:+ "();" +:+ nl +:+ nl.

Definition classFooter : string := "}" +:+ nl +:+ nl.

(** [generateClassRecursively], by recursion on the directory being read.
    The recursive calls sit in a loop over all the entries that skips those
    the source filters out of [dirs]; [generateClassRecursively_unfold]
    restates the function over the filtered lists, as the source has it. *)
Fixpoint generateClassOf (dir : node) (relativePath className : string) : string :=
  match dir with
  | File _ => EmptyString
  | Dir _ items =>
      let files := List.filter isListedFile items in
      let dirs := List.filter isListedDir items in
      let classContent :=
        classHeader className
        +:+ concatMap (classPropertyLine className) dirs
        +:+ concatMap (stringPropertyLine relativePath) files
        +:+ classFooter in
      let nestedClassesContent :=
        (fix loop (l : list node) : string :=
           match l with
           | [] => EmptyString
           | item :: rest =>
               (if isListedDir item
                then generateClassOf item
                       (nestedRelativePath relativePath (nodeName item))
                       (nestedClassName className (nodeName item))
                else EmptyString) +:+ loop rest
           end) items in
      classContent +:+ nestedClassesContent
  end.

(** [items] is what [fs.readdirSync(dirPath, ...)] returned. *)
Definition generateClassRecursively (items : list node)
    (relativePath className : string) : string :=
  generateClassOf (Dir EmptyString items) relativePath className.

(** *** The class tree behind the emitted text *)

Inductive member : Type :=
| ClassProperty (type name : string)
| StringProperty (name value : string) (svg : bool).

Record dartClass : Type := DartClass {
  className : string;
  members : list member
}.

Definition classMember (className : string) (dir : node) : member :=
  ClassProperty (nestedClassName className (nodeName dir))
                (formatPropertyName (nodeName dir)).

Definition stringMember (relativePath : string) (file : node) : member :=
  StringProperty (formatPropertyName (stripExtension (nodeName file)))
                 (assetValue relativePath (nodeName file))
                 (Str.endsWith (Str.toLowerCase (nodeName file)) ".svg").

(** The classes [generateClassRecursively] emits, in emission order. *)
Fixpoint classesOf (dir : node) (relativePath className : string) : list dartClass :=
  match dir with
  | File _ => []
  | Dir _ items =>
      DartClass className
        (List.map (classMember className) (List.filter isListedDir items)
         ++ List.map (stringMember relativePath) (List.filter isListedFile items))
      :: (fix loop (l : list node) : list dartClass :=
            match l with
            | [] => []
            | item :: rest =>
                (if isListedDir item
                 then classesOf item
                        (nestedRelativePath relativePath (nodeName item))
                        (nestedClassName className (nodeName item))
                 else []) ++ loop rest
            end) items
  end.

Definition classTree (items : list node) (relativePath className : string)
  : list dartClass :=
  classesOf (Dir EmptyString items) relativePath className.

Definition renderMember (m : member) : string :=
  match m with
  | ClassProperty type name =>
      "  final " +:+ type +:+ " " +:+ name +:+ " = const " +:+ type +:+ "();" +:+ nl
  | StringProperty name value svg =>
      "  final String " +:+ name +:+ " = '" +:+ value +:+ "';"
      +:+ (if svg then " // SVG File"%string else EmptyString) +:+ nl
  end.

Definition renderClass (c : dartClass) : string :=
  classHeader (className c) +:+ concatMap renderMember (members c) +:+ classFooter.

Definition render (cs : list dartClass) : string := concatMap renderClass cs.

(** The values of the string-valued properties of a class tree. *)
Definition memberValue (m : member) : list string :=
  match m with
  | StringProperty _ value _ => [value]
  | ClassProperty _ _ => []
  end.

Definition stringValues (cs : list dartClass) : list string :=
  flat_map (fun c => flat_map memberValue (members c)) cs.

(** *** Trees with and without variant directories *)

(** A directory that [generateClassRecursively] and [scanDirs] leave out. *)
Definition isVariantDir (item : node) : bool :=
  isDirectory item && isVariantName (nodeName item).

(** The tree below [dir] with every variant directory removed, at any
    depth, together with all it contains. *)
Fixpoint eraseVariants (dir : node) : node :=
  match dir with
  | File name => File name
  | Dir name items =>
      Dir name
        ((fix loop (l : list node) : list node :=
            match l with
            | [] => []
            | item :: rest =>
                if isVariantDir item then loop rest
                else eraseVariants item :: loop rest
            end) items)
  end.

(** No directory below [dir] has a variant name. *)
Fixpoint variantFree (dir : node) : bool :=
  match dir with
  | File _ => true
  | Dir _ items =>
      (fix loop (l : list node) : bool :=
         match l with
         | [] => true
         | item :: rest =>
             negb (isVariantDir item) && variantFree item && loop rest
         end) items
  end.

(** [assetFile items ds f]: below the directory holding [items], the
    directories [ds], none of them a variant directory, lead to a regular
    file named [f]. *)
Inductive assetFile : list node -> list string -> string -> Prop :=
| assetFile_here items f :
    In (File f) items -> assetFile items [] f
| assetFile_below items d kids ds f :
    In (Dir d kids) items -> isVariantName d = false ->
    assetFile kids ds f -> assetFile items (d :: ds) f.

(** [relativePath] after descending through [ds]. *)
Definition descend (relativePath : string) (ds : list string) : string :=
  foldl nestedRelativePath relativePath ds.

Fixpoint distinct (l : list string) : bool :=
  match l with
  | [] => true
  | x :: rest => negb (Str.includes rest x) && distinct rest
  end.

Definition noSlash (s : string) : bool :=
  Str.all (fun c => negb (Char.eqb c "/")) s.

Definition noBackslash (s : string) : bool :=
  Str.all (fun c => negb (Char.eqb c "092")) s.

(** What a file system guarantees about the entries of one directory:
    distinct names without [/]; and directory names without a backslash, as
    on Windows, so that [forwardSlash] leaves them alone. *)
Definition wellNamedEntries (items : list node) : bool :=
  distinct (List.map nodeName items)
  && forallb (fun item => noSlash (nodeName item)
                          && (isFile item || noBackslash (nodeName item))) items.

Fixpoint wellNamed (dir : node) : bool :=
  match dir with
  | File _ => true
  | Dir _ items =>
      wellNamedEntries items
      && (fix loop (l : list node) : bool :=
            match l with
            | [] => true
            | item :: rest => wellNamed item && loop rest
            end) items
  end.

(** How many times [v] occurs in [l]. *)
Definition occurrences (v : string) (l : list string) : nat :=
  length (List.filter (String.eqb v) l).

(** ** The project on disk

    The parts of the project a sync pass reads or writes: the entries of
    [<root>/assets], the text of [<root>/pubspec.yaml] when the file exists,
    and the regular files of the output directory ([None] while the
    directory does not exist).  [outsideAssets] answers [fs.existsSync] for
    the paths that leave [assets/] through [..] segments; the answer may
    depend on what the output directory holds. *)

Record disk : Type := Disk {
  assets : list node;
  pubspec : option string;
  outDir : option (gmap string string);
  outsideAssets : option (gmap string string) -> string -> bool
}.

Definition setPubspec (d : disk) (content : string) : disk :=
  Disk (assets d) (Some content) (outDir d) (outsideAssets d).

Definition setOutDir (d : disk) (files : gmap string string) : disk :=
  Disk (assets d) (pubspec d) (Some files) (outsideAssets d).

(** The same project with another asset tree. *)
Definition withAssets (d : disk) (items : list node) : disk :=
  Disk items (pubspec d) (outDir d) (outsideAssets d).

(** *** [generateAllAssetsClasses] *)

(** [rootFolder.endsWith('s') ? rootFolder.slice(0, -1) : rootFolder] *)
Definition baseName (rootFolder : string) : string :=
  if Str.endsWith rootFolder "s" then Str.dropLast rootFolder else rootFolder.

Definition partFileName (rootFolder : string) : string :=
  baseName rootFolder +:+ ".dart".

Definition rootClassName (rootFolder : string) : string :=
  "_" +:+ Str.capitalize (baseName rootFolder).

Definition partDecl (dir : node) : string :=
  "part '" +:+ partFileName (nodeName dir) +:+ "';" +:+ nl.

Definition appAssetsLine (dir : node) : string :=
  "  static const " +:+ formatPropertyName (nodeName dir) +:+ " = "
    +:+ rootClassName (nodeName dir) +:+ "();" +:+ nl.

Definition partContent (dir : node) : string :=
  "part of 'assets_app.dart';" +:+ nl +:+ nl
    +:+ generateClassRecursively (children dir) (nodeName dir)
          (rootClassName (nodeName dir)).

Definition mainContent (subdirs : list node) : string :=
  concatMap partDecl subdirs +:+ nl
    +:+ "class AssetsApp {" +:+ nl
    +:+ "  AssetsApp._();" +:+ nl +:+ nl
    +:+ concatMap appAssetsLine subdirs
    +:+ "}" +:+ nl.

Definition generatedFiles (subdirs : list node) : list string :=
  "assets_app.dart"%string :: List.map (fun dir => partFileName (nodeName dir)) subdirs.

(** [fs.readdirSync(outDir)] *)
Definition readdirOut (files : gmap string string) : list string :=
  (map_to_list files).*1.

(** [!generatedFiles.includes(file) && file.endsWith('.dart')] *)
Definition isStale (generated : list string) (file : string) : bool :=
  negb (Str.includes generated file) && Str.endsWith file ".dart".

Definition removeStale (generated : list string) (files : gmap string string)
  : gmap string string :=
  foldl (fun out file => if isStale generated file then delete file out else out)
        files (readdirOut files).

Definition generateAllAssetsClasses (d : disk) : disk :=
  let out0 := default ∅ (outDir d) in
  let subdirs := List.filter isDirectory (assets d) in
  let out1 :=
    foldl (fun out dir => <[partFileName (nodeName dir) := partContent dir]> out)
          out0 subdirs in
  let out2 := <["assets_app.dart"%string := mainContent subdirs]> out1 in
  setOutDir d (removeStale (generatedFiles subdirs) out2).

(** What the output directory holds under the name [file] once the loop
    has written the part files, [before] being what it held there. *)
Definition afterParts (file : string) (subdirs : list node) (before : option string)
  : option string :=
  foldl (fun held dir =>
           if String.eqb (partFileName (nodeName dir)) file
           then Some (partContent dir) else held)
        before subdirs.

(** *** [syncPubspecYaml] *)

Definition manifestEntry (relPath : string) : string :=
  "- assets/" +:+ forwardSlash relPath +:+ "/".

(** The inner function [scanDirs]: the entries it pushes, in push order. *)
Fixpoint scanDirs (dir : node) (relPath : string) : list string :=
  match dir with
  | File _ => []
  | Dir _ items =>
      manifestEntry relPath
      :: (fix loop (l : list node) : list string :=
            match l with
            | [] => []
            | item :: rest =>
                (if isListedDir item
                 then scanDirs item (nestedRelativePath relPath (nodeName item))
                 else []) ++ loop rest
            end) items
  end.

Definition requiredAssets (assetItems : list node) : list string :=
  flat_map (fun dir => scanDirs dir (nodeName dir)) (List.filter isDirectory assetItems).

(** [l.findIndex((x, i) => p(x, i))], with [None] for [-1]. *)
Fixpoint findIndexFrom {A} (p : A -> nat -> bool) (i : nat) (l : list A) : option nat :=
  match l with
  | [] => None
  | x :: rest => if p x i then Some i else findIndexFrom p (S i) rest
  end.

Definition findIndex {A} (p : A -> nat -> bool) (l : list A) : option nat :=
  findIndexFrom p 0 l.

(** [l.splice(i, 0, x)] *)
Definition splice {A} (l : list A) (i : nat) (x : A) : list A :=
  take i l ++ x :: drop i l.

(** [path.join(rootPath, p)] relative to the project root: the segments
    that remain after [.], empty segments and [..] are resolved; [None]
    when a [..] climbs above the project root. *)
Fixpoint normalizeFrom (stack : list string) (segs : list string) : option (list string) :=
  match segs with
  | [] => Some (rev stack)
  | s :: rest =>
      if String.eqb s "" || String.eqb s "." then normalizeFrom stack rest
      else if String.eqb s ".." then
        match stack with
        | [] => None
        | _ :: stack' => normalizeFrom stack' rest
        end
      else normalizeFrom (s :: stack) rest
  end.

Definition normalize (p : string) : option (list string) :=
  normalizeFrom [] (Str.split "/" p).

(** Does the path [segs], read from the directory holding [items], lead to
    an entry?  With [dirOnly] (the path ended in a slash) only a directory
    counts. *)
Fixpoint existsIn (items : list node) (segs : list string) (dirOnly : bool) : bool :=
  match segs with
  | [] => true
  | s :: rest =>
      match List.find (fun item => String.eqb (nodeName item) s) items with
      | Some (Dir _ kids) => existsIn kids rest dirOnly
      | Some (File _) => match rest with [] => negb dirOnly | _ => false end
      | None => false
      end
  end.

(** The segments of [p] below [assets/], when [p] stays inside it. *)
Definition insideAssets (p : string) : option (list string) :=
  match normalize p with
  | Some (String "a" (String "s" (String "s" (String "e" (String "t" (String "s" EmptyString))))) :: segs) =>
      Some segs
  | _ => None
  end.

(** [fs.existsSync(path.join(rootPath, p))] *)
Definition existsSync (d : disk) (p : string) : bool :=
  match insideAssets p with
  | Some segs => existsIn (assets d) segs (Str.endsWith p "/")
  | None => outsideAssets d (outDir d) p
  end.

Definition isQuote (c : ascii) : bool :=
  Char.eqb c "'" || Char.eqb c "034".

(** [trimmed.replace(/^- /, '')], then every single or double quote
    removed, then [.trim()]. *)
Definition dirPathStr (trimmed : string) : string :=
  let unprefixed :=
    match trimmed with
    | String "-" (String " " r) => r
    | _ => trimmed
    end in
  Str.trim (Str.filter (fun c => negb (isQuote c)) unprefixed).

(** [trimmed.startsWith('- assets/') && trimmed.split('/').length > 2] *)
Definition isPruneCandidate (trimmed : string) : bool :=
  Str.startsWith trimmed "- assets/" && Nat.ltb 2 (length (Str.split "/" trimmed)).

(** The predicate of the final [lines.filter]. *)
Definition keepLine (d : disk) (line : string) : bool :=
  let trimmed := Str.trim line in
  if isPruneCandidate trimmed then existsSync d (dirPathStr trimmed) else true.

(** Lines 237-238: locate the [flutter:] section or append one. *)
Definition locateFlutter (lines : list string) : list string * nat :=
  match findIndex (fun l _ => Str.startsWith l "flutter:") lines with
  | Some i => (lines, i)
  | None =>
      let lines' := lines ++ [""; "flutter:"; "  assets:"]%string in
      (lines', length lines' - 2)
  end.

(** Lines 239-240: locate the [assets:] block below it or insert one. *)
Definition locateAssets (lines : list string) (flutterIndex : nat) : list string * nat :=
  match findIndex (fun l i => Nat.ltb flutterIndex i && Str.startsWith l "  assets:") lines with
  | Some i => (lines, i)
  | None => (splice lines (flutterIndex + 1) "  assets:"%string, flutterIndex + 1)
  end.

(** The line inserted for a required entry. *)
Definition entryLine (reqAsset : string) : string := "    " +:+ reqAsset.

(** Lines 242-249: the insertion loop, threading [lines] and [addedCount]. *)
Definition insertMissing (existingEntries required : list string)
    (assetsIndex : nat) (lines : list string) : list string * nat :=
  foldl (fun '(lines, addedCount) reqAsset =>
           if negb (Str.includes existingEntries reqAsset)
           then (splice lines (assetsIndex + 1 + addedCount) (entryLine reqAsset),
                 S addedCount)
           else (lines, addedCount))
        (lines, 0) required.

(** The required entries the file lacks, in discovery order. *)
Definition missingEntries (existingEntries required : list string) : list string :=
  List.filter (fun reqAsset => negb (Str.includes existingEntries reqAsset)) required.


(** The number of [/] in [s]. *)
Fixpoint slashes (s : string) : nat :=
  match s with
  | EmptyString => 0
  | String c r => (if Char.eqb c "/" then 1 else 0) + slashes r
  end.

(** The lines [syncPubspecYaml] writes back, from those it read. *)
Definition syncLines (d : disk) (lines : list string) : list string :=
  let '(lines, flutterIndex) := locateFlutter lines in
  let '(lines, assetsIndex) := locateAssets lines flutterIndex in
  let existingEntries := List.map Str.trim lines in
  let '(lines, _) := insertMissing existingEntries (requiredAssets (assets d)) assetsIndex lines in
  List.filter (keepLine d) lines.

Definition syncPubspecYaml (d : disk) : disk :=
  match pubspec d with
  | None => d
  | Some content =>
      setPubspec d (Str.join nl (syncLines d (Str.split "010" content)))
  end.

(** The body of the [try] block of [runFullSync]. *)
Definition fullSync (d : disk) : disk :=
  generateAllAssetsClasses (syncPubspecYaml d).

(** ** The sync coordinator

    The module-level variables [isSyncing] and [syncTimer], the [autoSync]
    setting and the callbacks the extension registers, as a machine that
    takes one event at a time: JavaScript runs each callback to completion
    before the next one starts.  The two [setTimeout] delays become events
    of their own ([DebounceElapsed], [GuardTimerElapsed]) that can only
    happen while the corresponding timer is pending. *)

Inductive action : Type :=
| PassStarted      (* line 89 reached *)
| PassSucceeded    (* the [try] block ran through *)
| PassFailed       (* the [catch] block ran *)
| GuardCleared.    (* [isSyncing = false] executed *)

Section Coordinator.

(** [W] is the workspace folder on disk, [assetsExist] is
    [fs.existsSync(assetsPath)], and [pass w = (w', ok)] runs the [try]
    block on [w]: [ok = false] when it threw, [w'] being what it left. *)
Context {W : Type} (assetsExist : W -> bool) (pass : W -> W * bool).

Record coordinator : Type := Coordinator {
  isSyncing : bool;
  (** the pending debounce timer, with whether the captured [uri] lies in
      a workspace folder *)
  syncTimer : option bool;
  (** pending 2000 ms callbacks that will clear the guard *)
  guardTimers : nat;
  autoSync : bool;
  world : W
}.

Inductive event : Type :=
| FileEvent (inWorkspace : bool)       (* create, change, delete, rename *)
| DebounceElapsed                      (* the 600 ms timer fires *)
| GuardTimerElapsed                    (* a 2000 ms timer fires *)
| ForceGenerate (hasWorkspace : bool)  (* the forceGenerate command *)
| ToggleAutoSync                       (* the toggleAutoSync command *)
| Deactivate                           (* [deactivate]: the timer is cleared *)
| DiskChanged (w : W).                 (* somebody else edits the folder *)

Definition initial (auto : bool) (w : W) : coordinator :=
  Coordinator false None 0 auto w.

(** One 2000 ms timer is pending exactly while the guard is set. *)
Definition guardConsistent (s : coordinator) : Prop :=
  guardTimers s = if isSyncing s then 1 else 0.

Definition runFullSync (s : coordinator) (inWorkspace force : bool)
  : coordinator * list action :=
  if negb (autoSync s) && negb force then (s, [])
  else if isSyncing s then (s, [])
  else if negb inWorkspace then (s, [])
  else if negb (assetsExist (world s)) then (s, [])
  else
    let '(w', ok) := pass (world s) in
    if ok
    then (Coordinator true (syncTimer s) (S (guardTimers s)) (autoSync s) w',
          [PassStarted; PassSucceeded])
    else (Coordinator false (syncTimer s) (guardTimers s) (autoSync s) w',
          [PassStarted; PassFailed; GuardCleared]).

(** [debouncedSync]: any pending timer is cancelled and a new one armed. *)
Definition debouncedSync (s : coordinator) (inWorkspace : bool) : coordinator :=
  Coordinator (isSyncing s) (Some inWorkspace) (guardTimers s) (autoSync s) (world s).

Definition step (s : coordinator) (e : event) : coordinator * list action :=
  match e with
  | FileEvent inWorkspace => (debouncedSync s inWorkspace, [])
  | DebounceElapsed =>
      match syncTimer s with
      | None => (s, [])
      | Some inWorkspace =>
          let s' := Coordinator (isSyncing s) None (guardTimers s) (autoSync s) (world s) in
          if negb (isSyncing s) then runFullSync s' inWorkspace false else (s', [])
      end
  | GuardTimerElapsed =>
      match guardTimers s with
      | 0 => (s, [])
      | S n => (Coordinator false (syncTimer s) n (autoSync s) (world s), [GuardCleared])
      end
  | ForceGenerate hasWorkspace =>
      if hasWorkspace then runFullSync s true true else (s, [])
  | ToggleAutoSync =>
      (Coordinator (isSyncing s) (syncTimer s) (guardTimers s) (negb (autoSync s)) (world s), [])
  | Deactivate =>
      (Coordinator (isSyncing s) None (guardTimers s) (autoSync s) (world s), [])
  | DiskChanged w =>
      (Coordinator (isSyncing s) (syncTimer s) (guardTimers s) (autoSync s) w, [])
  end.

Fixpoint run (s : coordinator) (events : list event) : coordinator * list action :=
  match events with
  | [] => (s, [])
  | e :: rest =>
      let '(s1, a1) := step s e in
      let '(s2, a2) := run s1 rest in
      (s2, a1 ++ a2)
  end.

End Coordinator.

(** Where a trace of actions stands: no pass under way, a pass running, or
    a pass over with the guard still set. *)
Inductive phase : Type := Idle | Running | Guarded.

(** Reads a trace from phase [p]: a pass starts from [Idle] only, ends in
    success or failure, and the guard is cleared before the next one
    starts.  [None] when the trace breaks this order. *)
Fixpoint phaseAfter (p : phase) (trace : list action) : option phase :=
  match trace with
  | [] => Some p
  | a :: rest =>
      match p, a with
      | Idle, PassStarted => phaseAfter Running rest
      | Running, PassSucceeded => phaseAfter Guarded rest
      | Running, PassFailed => phaseAfter Guarded rest
      | Guarded, GuardCleared => phaseAfter Idle rest
      | _, _ => None
      end
  end.

(** The phase a coordinator is in between two events. *)
Definition phaseOf (guard : bool) : phase := if guard then Guarded else Idle.

(** The workspace folder of the extension: the project when [assets/]
    exists.  The model of the [try] block never throws. *)
Definition assetsPresent (w : option disk) : bool :=
  match w with Some _ => true | None => false end.

Definition syncPass (w : option disk) : option disk * bool :=
  (fullSync <$> w, true).

(** *** Manifests a pass leaves alone once it has run *)

Definition noNewline (s : string) : bool :=
  Str.all (fun c => negb (Char.eqb c "010")) s.

(** The line is no candidate for pruning, or the path it names stays
    inside [assets/]. *)
Definition refersInside (line : string) : bool :=
  let trimmed := Str.trim line in
  negb (isPruneCandidate trimmed)
  || match insideAssets (dirPathStr trimmed) with Some _ => true | None => false end.

(** No directory path holds a line feed, and the lines of the manifest and
    the entries of the directories all refer inside [assets/]. *)
Definition manifestStable (d : disk) : bool :=
  match pubspec d with
  | None => true
  | Some content =>
      let required := requiredAssets (assets d) in
      forallb noNewline required
      && forallb refersInside (Str.split "010" content ++ List.map entryLine required)
  end.

(** ** Sample projects *)

(** A manifest that lists a category that is gone, with and without the
    trailing slash, next to one that is there. *)
Definition sampleManifest : list string :=
  ["name: app"; "flutter:"; "  uses-material-design: true"; "  assets:";
   "    - assets/images/"; "    - assets/gone/"; "    - assets/gone"]%string.

Definition sampleDisk : disk :=
  Disk [Dir "images" [File "logo.png"; Dir "icons" [File "user.svg"]]]%string
       (Some (Str.join nl sampleManifest)) None (fun _ _ => false).

(** A category whose name holds a line feed. *)
Definition lineFeedDisk : disk :=
  Disk [Dir ("a" +:+ nl +:+ "b") []]%string
       (Some (Str.join nl ["flutter:"; "  assets:"]%string)) None (fun _ _ => false).

(** A manifest that lists a generated file the next pass deletes; the
    path leaves [assets/], and exists while the output directory holds
    [old.dart]. *)
Definition staleReferenceDisk : disk :=
  Disk [Dir "images" []]%string
       (Some (Str.join nl ["flutter:"; "  assets:";
                           "    - assets/../lib/constants/assets/old.dart"]%string))
       (Some (<["old.dart"%string := "class Old {}"%string]> ∅))
       (fun out p =>
          String.eqb p "assets/../lib/constants/assets/old.dart"
          && match out with
             | Some files => bool_decide (is_Some (files !! "old.dart"%string))
             | None => false
             end).

(** Two directories whose paths read the same once backslashes are turned
    into slashes. *)
Definition backslashItems : list node :=
  [Dir (String "a" (String "092" (String "b" EmptyString))) [File "f.png"];
   Dir "a" [Dir "b" [File "f.png"]]]%string.

(** ** Further notions used to state properties of the code *)

(** An identifier [formatPropertyName] has nothing to change in: it
    starts with a lower-case letter, is alphanumeric and is not reserved. *)
Definition isPlainIdentifier (s : string) : bool :=
  match s with
  | EmptyString => false
  | String c _ => Char.isLower c
  end
  && Str.all Char.isAlnum s
  && negb (Str.includes dartKeywords s).

(** Every [_] written as [-]. *)
Definition hyphenate : string -> string :=
  Str.map (fun c => if isDelimiter c then "-" else c).

(** [dirBelow items ds]: below the directory holding [items], the
    directories [ds], none of them a variant directory, follow one
    another; the empty path is the directory itself. *)
Inductive dirBelow : list node -> list string -> Prop :=
| dirBelow_here items : dirBelow items []
| dirBelow_step items d kids ds :
    In (Dir d kids) items -> isVariantName d = false ->
    dirBelow kids ds -> dirBelow items (d :: ds).

(** The three lines appended when the file has no [flutter:] section. *)
Definition newSection : list string := [""; "flutter:"; "  assets:"]%string.

(** A directory name made of letters, digits, [-], [_] and [.], other than
    [.] and [..]. *)
Definition isPlainChar (c : ascii) : bool :=
  Char.isAlnum c || isDelimiter c || Char.eqb c ".".

Definition isPlainName (s : string) : bool :=
  Str.all isPlainChar s
  && negb (String.eqb s "") && negb (String.eqb s ".") && negb (String.eqb s "..").

(** Neither a quote nor a backslash: the characters of a path of plain
    names. *)
Definition isPathChar (c : ascii) : bool :=
  negb (isQuote c) && negb (Char.eqb c "092").

(** Steps 2 to 6 of [formatPropertyName], applied to the text step 1
    yields. *)
Definition afterCamelCase (text : string) : string :=
  let camelCase := Str.filter Char.isAlnum text in
  let camelCase := Str.uncapitalize camelCase in
  let camelCase := if startsWithDigit camelCase then "item" +:+ camelCase else camelCase in
  let camelCase :=
    if Str.includes dartKeywords camelCase then camelCase +:+ "Asset" else camelCase in
  match camelCase with
  | EmptyString => "unknown"%string
  | _ => camelCase
  end.

(** A character of ASCII. *)
Definition isAsciiChar (c : ascii) : bool := Nat.ltb (Char.code c) 128.

(** The directories both walks visit below [dir], as paths of directory
    names, in visiting order; the empty path is [dir] itself. *)
Fixpoint dirPaths (dir : node) : list (list string) :=
  match dir with
  | File _ => []
  | Dir _ items =>
      []
      :: (fix loop (l : list node) : list (list string) :=
            match l with
            | [] => []
            | item :: rest =>
                (if isListedDir item
                 then List.map (cons (nodeName item)) (dirPaths item)
                 else []) ++ loop rest
            end) items
  end.

(** The class name reached from [className] through the directories
    [ds]. *)
Definition descendClass (className : string) (ds : list string) : string :=
  foldl nestedClassName className ds.

(** *** The assets section of a manifest *)





(** * Properties *)

Local Close Scope char_scope.

(** ** Characters and strings *)

Lemma string_app_cons (x : ascii) (a b : string) : String x a +:+ b = String x (a +:+ b).
Proof. reflexivity. Qed.

Lemma string_app_nil_l (s : string) : "" +:+ s = s.
Proof. reflexivity. Qed.

Lemma string_app_nil_r (s : string) : s +:+ "" = s.
Proof. induction s as [|c r IH]; [done | by rewrite string_app_cons, IH]. Qed.

Lemma string_app_assoc (a b c : string) : (a +:+ b) +:+ c = a +:+ b +:+ c.
Proof. induction a as [|x a IH]; [done | by rewrite !string_app_cons, IH]. Qed.

Lemma all_app (p : ascii -> bool) (a b : string) :
  Str.all p (a +:+ b) = Str.all p a && Str.all p b.
Proof.
  induction a as [|x a IH]; [done |].
  rewrite string_app_cons. simpl. by rewrite IH, andb_assoc.
Qed.

Lemma all_filter (p : ascii -> bool) (s : string) : Str.all p (Str.filter p s) = true.
Proof.
  induction s as [|c r IH]; simpl; [done |].
  destruct (p c) eqn:E; simpl; [by rewrite E | done].
Qed.

Lemma toLowerCase_alnum (c : ascii) :
  Char.isAlnum c = true -> Char.isAlnum (Char.toLowerCase c) = true.
Proof. destruct c as [[] [] [] [] [] [] [] []]; vm_compute; congruence. Qed.

Lemma toLowerCase_letter_or_digit (c : ascii) :
  Char.isAlnum c = true ->
  Char.isDigit (Char.toLowerCase c) = false ->
  Char.isLetter (Char.toLowerCase c) = true.
Proof. destruct c as [[] [] [] [] [] [] [] []]; vm_compute; congruence. Qed.

Lemma uncapitalize_alnum (s : string) :
  Str.all Char.isAlnum s = true -> Str.all Char.isAlnum (Str.uncapitalize s) = true.
Proof.
  destruct s as [|c r]; simpl; [done |].
  intros [Hc Hr]%andb_true_iff. by rewrite toLowerCase_alnum.
Qed.

Lemma includes_spec (l : list string) (x : string) :
  Str.includes l x = true <-> In x l.
Proof.
  unfold Str.includes. rewrite existsb_exists. split.
  - intros (y & Hy & E). apply String.eqb_eq in E. by subst.
  - intros H. exists x. split; [done | apply String.eqb_refl].
Qed.

Lemma includes_false (l : list string) (x : string) :
  Str.includes l x = false <-> ~ In x l.
Proof. rewrite <- includes_spec. destruct (Str.includes l x); split; congruence. Qed.

(** ** Identifier derivation *)

(** The result of steps 1 to 4: alphanumeric, and led by a letter unless
    empty. *)
Lemma prefixed_shape (name : string) :
  let s := Str.uncapitalize (Str.filter Char.isAlnum (camelize false name)) in
  let t := if startsWithDigit s then "item" +:+ s else s in
  Str.all Char.isAlnum t = true /\
  (t = "" \/ exists c r, t = String c r /\ Char.isLetter c = true).
Proof.
  intros s t.
  assert (Hs : Str.all Char.isAlnum s = true)
    by apply uncapitalize_alnum, all_filter.
  subst t. destruct (startsWithDigit s) eqn:Hd.
  - split; [by rewrite all_app, Hs | right; by exists "i"%char, ("tem" +:+ s)].
  - split; [done |]. subst s.
    destruct (Str.filter Char.isAlnum (camelize false name)) as [|c r] eqn:E;
      [by left | right].
    pose proof (all_filter Char.isAlnum (camelize false name)) as Ha.
    rewrite E in Ha. simpl in Ha. apply andb_true_iff in Ha as [Hc _].
    simpl in *. eexists _, _. split; [done |].
    by apply toLowerCase_letter_or_digit.
Qed.

Lemma keyword_suffixed (t : string) :
  In t dartKeywords -> Str.includes dartKeywords (t +:+ "Asset") = false.
Proof. unfold dartKeywords. simpl. intuition (subst; reflexivity). Qed.

(** C9: for every input, [formatPropertyName] returns a non-empty string
    that starts with an ASCII letter, consists of characters of
    [[A-Za-z0-9]] only and is none of the eleven reserved words. *)
Theorem formatPropertyName_wellFormed (name : string) :
  wellFormedIdentifier (formatPropertyName name).
Proof.
  unfold formatPropertyName.
  destruct (prefixed_shape name) as [Hall Hshape]. simpl in Hall, Hshape.
  set (t := if startsWithDigit _ then _ else _) in *.
  destruct (Str.includes dartKeywords t) eqn:Hk.
  - apply includes_spec in Hk.
    pose proof (keyword_suffixed t Hk) as Hnk.
    destruct Hshape as [-> | (c & r & -> & Hc)]; [simpl in Hk; intuition discriminate |].
    rewrite string_app_cons in *. repeat split.
    + discriminate.
    + by eexists _, _.
    + rewrite <- string_app_cons, all_app, Hall. reflexivity.
    + done.
  - destruct Hshape as [-> | (c & r & -> & Hc)].
    + repeat split; [discriminate | by exists "u"%char, "nknown" | ..]; reflexivity.
    + repeat split; [discriminate | by eexists _, _ | done | done].
Qed.

(** C2, as the source has it: [my-icon_1] gives [myIcon1], [class] gives
    [classAsset], and [123abc], which has no delimiter to camel-case, gives
    [item123abc]; the digit test sees the camel-cased text, so that [_1a]
    gives [item1a]. *)
Theorem formatPropertyName_examples :
  formatPropertyName "my-icon_1" = "myIcon1" /\
  formatPropertyName "class" = "classAsset" /\
  formatPropertyName "123abc" = "item123abc" /\
  formatPropertyName "_1a" = "item1a".
Proof. repeat split; reflexivity. Qed.

(** C2 as stated fails on its third example: the source does not upper-case
    the [a] of [123abc]. *)
Lemma formatPropertyName_123abc_not_capitalized :
  ~ (formatPropertyName "my-icon_1" = "myIcon1" /\
     formatPropertyName "class" = "classAsset" /\
     formatPropertyName "123abc" = "item123Abc").
Proof. intros (_ & _ & H). vm_compute in H. discriminate. Qed.

(** ** The asset tree and the loops over it *)

Lemma concatMap_cons {A} (f : A -> string) (x : A) (l : list A) :
  concatMap f (x :: l) = f x +:+ concatMap f l.
Proof. reflexivity. Qed.

Lemma concatMap_app {A} (f : A -> string) (l1 l2 : list A) :
  concatMap f (l1 ++ l2) = concatMap f l1 +:+ concatMap f l2.
Proof.
  induction l1 as [|x l1 IH]; [done |].
  by rewrite <- app_comm_cons, !concatMap_cons, IH, string_app_assoc.
Qed.

Lemma concatMap_map {A B} (g : A -> B) (f : B -> string) (l : list A) :
  concatMap f (List.map g l) = concatMap (fun x => f (g x)) l.
Proof. induction l as [|x l IH]; [done |]. simpl. by rewrite !concatMap_cons, IH. Qed.

Lemma concatMap_ext {A} (f g : A -> string) (l : list A) :
  Forall (fun x => f x = g x) l -> concatMap f l = concatMap g l.
Proof. induction 1 as [|x l E _ IH]; [done |]. by rewrite !concatMap_cons, E, IH. Qed.

(** A loop that skips the entries failing [p] is a loop over the filtered
    entries: for text... *)
Lemma skipping_loop_text {A} (p : A -> bool) (f : A -> string) (l : list A) :
  (fix loop (l : list A) : string :=
     match l with
     | [] => ""
     | item :: rest => (if p item then f item else "") +:+ loop rest
     end) l = concatMap f (List.filter p l).
Proof.
  induction l as [|x l IH]; [done |]. rewrite IH. simpl.
  destruct (p x); [by rewrite concatMap_cons | done].
Qed.

(** ... and for lists. *)
Lemma skipping_loop_list {A B} (p : A -> bool) (f : A -> list B) (l : list A) :
  (fix loop (l : list A) : list B :=
     match l with
     | [] => []
     | item :: rest => (if p item then f item else []) ++ loop rest
     end) l = flat_map f (List.filter p l).
Proof.
  induction l as [|x l IH]; [done |]. rewrite IH. simpl.
  destruct (p x); done.
Qed.

(** [generateClassRecursively] as the source writes it: the class itself,
    then the classes of the listed subdirectories in order. *)
Lemma generateClassOf_unfold (name : string) (items : list node) (rel cls : string) :
  generateClassOf (Dir name items) rel cls =
  (classHeader cls
   +:+ concatMap (classPropertyLine cls) (List.filter isListedDir items)
   +:+ concatMap (stringPropertyLine rel) (List.filter isListedFile items)
   +:+ classFooter)
  +:+ concatMap (fun dir => generateClassOf dir (nestedRelativePath rel (nodeName dir))
                                            (nestedClassName cls (nodeName dir)))
                (List.filter isListedDir items).
Proof.
  rewrite <- (skipping_loop_text isListedDir
    (fun dir => generateClassOf dir (nestedRelativePath rel (nodeName dir))
                                (nestedClassName cls (nodeName dir)))).
  reflexivity.
Qed.

Lemma generateClassOf_children (dir : node) (rel cls : string) :
  isDirectory dir = true ->
  generateClassOf dir rel cls = generateClassRecursively (children dir) rel cls.
Proof. by destruct dir. Qed.

Lemma isListedDir_isDirectory (item : node) :
  isListedDir item = true -> isDirectory item = true.
Proof. unfold isListedDir. by intros [? _]%andb_true_iff. Qed.



Lemma scanDirs_unfold (name : string) (items : list node) (rel : string) :
  scanDirs (Dir name items) rel =
  manifestEntry rel
  :: flat_map (fun dir => scanDirs dir (nestedRelativePath rel (nodeName dir)))
              (List.filter isListedDir items).
Proof.
  rewrite <- (skipping_loop_list isListedDir
    (fun dir => scanDirs dir (nestedRelativePath rel (nodeName dir)))).
  reflexivity.
Qed.

Lemma classesOf_unfold (name : string) (items : list node) (rel cls : string) :
  classesOf (Dir name items) rel cls =
  DartClass cls
    (List.map (classMember cls) (List.filter isListedDir items)
     ++ List.map (stringMember rel) (List.filter isListedFile items))
  :: flat_map (fun dir => classesOf dir (nestedRelativePath rel (nodeName dir))
                                    (nestedClassName cls (nodeName dir)))
              (List.filter isListedDir items).
Proof.
  rewrite <- (skipping_loop_list isListedDir
    (fun dir => classesOf dir (nestedRelativePath rel (nodeName dir))
                          (nestedClassName cls (nodeName dir)))).
  reflexivity.
Qed.

Lemma render_app (a b : list dartClass) : render (a ++ b) = render a +:+ render b.
Proof. apply concatMap_app. Qed.

(** The emitted text is the rendering of the class tree. *)
Lemma generateClassOf_render (dir : node) :
  forall rel cls, generateClassOf dir rel cls = render (classesOf dir rel cls).
Proof.
  induction dir as [name | name items IH] using node_nested_ind; intros rel cls;
    [done |].
  rewrite generateClassOf_unfold, classesOf_unfold.
  unfold render at 1. rewrite concatMap_cons. unfold renderClass at 1. simpl.
  rewrite concatMap_app, !concatMap_map, !string_app_assoc.
  do 4 f_equal.
  induction items as [|item items IHitems]; [done |].
  apply Forall_cons_1 in IH as [Hitem Hrest]. simpl.
  destruct (isListedDir item); [| by apply IHitems].
  simpl. rewrite concatMap_cons, Hitem, IHitems by done.
  fold (render (classesOf item (nestedRelativePath rel (nodeName item))
                          (nestedClassName cls (nodeName item)))).
  symmetry. apply render_app.
Qed.

Lemma generateClassRecursively_render (items : list node) (rel cls : string) :
  generateClassRecursively items rel cls = render (classTree items rel cls).
Proof. apply generateClassOf_render. Qed.

(** ** Variant directories *)

Lemma eraseVariants_unfold (name : string) (items : list node) :
  eraseVariants (Dir name items) =
  Dir name (List.map eraseVariants
              (List.filter (fun item => negb (isVariantDir item)) items)).
Proof.
  simpl. f_equal.
  induction items as [|item items IH]; [done |].
  rewrite IH. simpl. by destruct (isVariantDir item).
Qed.

Lemma eraseVariants_name (n : node) : nodeName (eraseVariants n) = nodeName n.
Proof. by destruct n. Qed.

Lemma eraseVariants_isDirectory (n : node) : isDirectory (eraseVariants n) = isDirectory n.
Proof. by destruct n. Qed.

Lemma eraseVariants_isFile (n : node) : isFile (eraseVariants n) = isFile n.
Proof. by destruct n. Qed.

Lemma filter_map_swap {A B} (p : B -> bool) (g : A -> B) (l : list A) :
  List.filter p (List.map g l) = List.map g (List.filter (fun x => p (g x)) l).
Proof.
  induction l as [|x l IH]; [done |]. simpl.
  destruct (p (g x)); simpl; by rewrite IH.
Qed.

Lemma filter_filter {A} (p q : A -> bool) (l : list A) :
  List.filter p (List.filter q l) = List.filter (fun x => q x && p x) l.
Proof.
  induction l as [|x l IH]; [done |]. simpl.
  destruct (q x); simpl; [destruct (p x) |]; by rewrite IH.
Qed.

Lemma filter_ext_bool {A} (p q : A -> bool) (l : list A) :
  (forall x, p x = q x) -> List.filter p l = List.filter q l.
Proof. intros E. induction l as [|x l IH]; [done |]. simpl. by rewrite E, IH. Qed.

(** Filtering the entries of an erased directory. *)
Lemma listed_after_erasure (p : node -> bool) (items : list node) :
  (forall item, p (eraseVariants item) = p item) ->
  (forall item, p item = true -> isVariantDir item = false) ->
  List.filter p (List.map eraseVariants
                   (List.filter (fun item => negb (isVariantDir item)) items))
  = List.map eraseVariants (List.filter p items).
Proof.
  intros Hp Hv. rewrite filter_map_swap, filter_filter. f_equal.
  apply filter_ext_bool. intros item. rewrite Hp.
  destruct (p item) eqn:E; [by rewrite (Hv item E) | apply andb_false_r].
Qed.

Lemma isListedDir_erased (item : node) : isListedDir (eraseVariants item) = isListedDir item.
Proof. by destruct item. Qed.

Lemma isListedFile_erased (item : node) : isListedFile (eraseVariants item) = isListedFile item.
Proof. by destruct item. Qed.

Lemma isListedDir_not_variant (item : node) :
  isListedDir item = true -> isVariantDir item = false.
Proof.
  unfold isListedDir, isVariantDir. intros [_ H]%andb_true_iff.
  apply negb_true_iff in H. rewrite H. apply andb_false_r.
Qed.

Lemma isListedFile_not_variant (item : node) :
  isListedFile item = true -> isVariantDir item = false.
Proof. by destruct item. Qed.

Lemma flat_map_ext_Forall {A B} (f g : A -> list B) (l : list A) :
  Forall (fun x => f x = g x) l -> flat_map f l = flat_map g l.
Proof. induction 1 as [|x l E _ IH]; [done |]. simpl. by rewrite E, IH. Qed.

Lemma variantFree_unfold (name : string) (items : list node) :
  variantFree (Dir name items) =
  forallb (fun item => negb (isVariantDir item) && variantFree item) items.
Proof.
  simpl. induction items as [|item items IH]; [done |]. by rewrite IH.
Qed.

(** Neither walk sees the variant directories of a tree. *)
Lemma walks_ignore_variants (dir : node) :
  (forall rel cls, generateClassOf (eraseVariants dir) rel cls = generateClassOf dir rel cls)
  /\ (forall rel, scanDirs (eraseVariants dir) rel = scanDirs dir rel)
  /\ variantFree (eraseVariants dir) = true.
Proof.
  induction dir as [name | name items IH] using node_nested_ind; [done |].
  rewrite eraseVariants_unfold.
  set (kept := List.map eraseVariants _).
  assert (Hdirs : List.filter isListedDir kept
                  = List.map eraseVariants (List.filter isListedDir items))
    by (apply listed_after_erasure;
        [apply isListedDir_erased | apply isListedDir_not_variant]).
  assert (Hfiles : List.filter isListedFile kept
                   = List.map eraseVariants (List.filter isListedFile items))
    by (apply listed_after_erasure;
        [apply isListedFile_erased | apply isListedFile_not_variant]).
  assert (IH' : Forall (fun item =>
            (forall rel cls, generateClassOf (eraseVariants item) rel cls
                             = generateClassOf item rel cls)
            /\ (forall rel, scanDirs (eraseVariants item) rel = scanDirs item rel)
            /\ variantFree (eraseVariants item) = true)
          (List.filter isListedDir items)).
  { apply List.Forall_forall. intros item [Hin _]%filter_In.
    by apply (proj1 (List.Forall_forall _ _) IH). }
  split; [| split].
  - intros rel cls. rewrite !generateClassOf_unfold, Hdirs, Hfiles, !concatMap_map.
    rewrite (concatMap_ext (fun x => classPropertyLine cls (eraseVariants x))
                           (classPropertyLine cls)).
    2:{ apply Forall_true. intros item.
        unfold classPropertyLine. by rewrite eraseVariants_name. }
    rewrite (concatMap_ext (fun x => stringPropertyLine rel (eraseVariants x))
                           (stringPropertyLine rel)).
    2:{ apply Forall_true. intros item.
        unfold stringPropertyLine. by rewrite eraseVariants_name. }
    f_equal. apply concatMap_ext. eapply Forall_impl; [exact IH' |].
    intros item (Hgen & _ & _). simpl. by rewrite eraseVariants_name, Hgen.
  - intros rel. rewrite !scanDirs_unfold, Hdirs. f_equal.
    rewrite flat_map_concat_map, List.map_map, <- flat_map_concat_map.
    apply flat_map_ext_Forall. eapply Forall_impl; [exact IH' |].
    intros item (_ & Hscan & _). simpl. by rewrite eraseVariants_name, Hscan.
  - rewrite variantFree_unfold. apply forallb_forall.
    intros x (item & <- & [Hin Hv]%filter_In)%in_map_iff.
    apply (proj1 (List.Forall_forall _ _) IH) in Hin as (_ & _ & ->).
    replace (isVariantDir (eraseVariants item)) with (isVariantDir item)
      by (by destruct item).
    by rewrite Hv.
Qed.

Lemma partContent_erased (dir : node) : partContent (eraseVariants dir) = partContent dir.
Proof.
  assert (H : forall rel cls,
             generateClassRecursively (children (eraseVariants dir)) rel cls
             = generateClassRecursively (children dir) rel cls).
  { intros rel cls. destruct dir as [name | name items]; [done |].
    rewrite <- (generateClassOf_children (eraseVariants (Dir name items))),
            <- (generateClassOf_children (Dir name items)) by done.
    apply walks_ignore_variants. }
  unfold partContent. by rewrite eraseVariants_name, H.
Qed.

Lemma foldl_map {A B C} (f : C -> B -> C) (g : A -> B) (l : list A) (init : C) :
  foldl f init (List.map g l) = foldl (fun acc x => f acc (g x)) init l.
Proof. revert init. induction l as [|x l IH]; intros init; [done | apply IH]. Qed.

Lemma foldl_ext_all {A C} (f g : C -> A -> C) (l : list A) (init : C) :
  (forall acc x, f acc x = g acc x) -> foldl f init l = foldl g init l.
Proof.
  intros E. revert init. induction l as [|x l IH]; intros init; [done |].
  simpl. by rewrite E, IH.
Qed.

(** C6: the manifest entries required and the files generated for a tree
    are those of the same tree with every variant directory below a
    category erased, a tree in which no directory below a category has
    such a name: a variant directory, wherever it sits below a category,
    yields no class and no entry and is not walked into. *)
Theorem variant_directories_ignored (d : disk) :
  let d' := withAssets d (List.map eraseVariants (assets d)) in
  forallb variantFree (assets d') = true
  /\ requiredAssets (assets d') = requiredAssets (assets d)
  /\ outDir (generateAllAssetsClasses d') = outDir (generateAllAssetsClasses d).
Proof.
  simpl.
  assert (Hsub : List.filter isDirectory (List.map eraseVariants (assets d))
                 = List.map eraseVariants (List.filter isDirectory (assets d))).
  { rewrite filter_map_swap. f_equal. apply filter_ext_bool.
    apply eraseVariants_isDirectory. }
  split; [| split].
  - apply forallb_forall. intros x (item & <- & _)%in_map_iff.
    apply walks_ignore_variants.
  - unfold requiredAssets. rewrite Hsub.
    rewrite flat_map_concat_map, List.map_map, <- flat_map_concat_map.
    apply flat_map_ext_Forall, Forall_true. intros dir.
    rewrite eraseVariants_name. apply walks_ignore_variants.
  - unfold generateAllAssetsClasses. simpl. rewrite Hsub.
    set (subdirs := List.filter isDirectory (assets d)).
    assert (Hgen : generatedFiles (List.map eraseVariants subdirs) = generatedFiles subdirs).
    { unfold generatedFiles. rewrite List.map_map. f_equal.
      apply List.map_ext. intros dir. by rewrite eraseVariants_name. }
    assert (Hmain : mainContent (List.map eraseVariants subdirs) = mainContent subdirs).
    { unfold mainContent. rewrite !concatMap_map.
      rewrite (concatMap_ext (fun x => partDecl (eraseVariants x)) partDecl)
        by (apply Forall_true; intros dir; unfold partDecl;
            by rewrite eraseVariants_name).
      rewrite (concatMap_ext (fun x => appAssetsLine (eraseVariants x)) appAssetsLine)
        by (apply Forall_true; intros dir; unfold appAssetsLine;
            by rewrite eraseVariants_name).
      done. }
    rewrite Hgen, Hmain, foldl_map. do 3 f_equal.
    apply foldl_ext_all. intros out dir.
    by rewrite eraseVariants_name, partContent_erased.
Qed.

(** ** Dot directories *)


Lemma filter_middle {A} (p : A -> bool) (pre post : list A) (x : A) :
  List.filter p (pre ++ x :: post)
  = List.filter p pre ++ (if p x then [x] else []) ++ List.filter p post.
Proof. rewrite List.filter_app. simpl. by destruct (p x). Qed.



(** ** The output directory *)

Lemma endsWith_refl (s : string) : Str.endsWith s s = true.
Proof. destruct s; cbn [Str.endsWith]; by rewrite String.eqb_refl. Qed.

Lemma endsWith_app (a b : string) : Str.endsWith (a +:+ b) b = true.
Proof.
  induction a as [|c a IH]; [apply endsWith_refl |].
  rewrite string_app_cons. cbn [Str.endsWith]. rewrite IH. apply orb_true_r.
Qed.

Lemma generatedFiles_dart (subdirs : list node) (file : string) :
  In file (generatedFiles subdirs) -> Str.endsWith file ".dart" = true.
Proof.
  intros [<- | (dir & <- & _)%in_map_iff]; [reflexivity | apply endsWith_app].
Qed.

Lemma lookup_parts_written (subdirs : list node) (files : gmap string string) (file : string) :
  foldl (fun out dir => <[partFileName (nodeName dir) := partContent dir]> out)
        files subdirs !! file
  = afterParts file subdirs (files !! file).
Proof.
  unfold afterParts. revert files.
  induction subdirs as [|dir subdirs IH]; intros files; [done |].
  simpl. rewrite IH. f_equal. rewrite lookup_insert.
  destruct (String.eqb_spec (partFileName (nodeName dir)) file) as [-> | Hne].
  - by rewrite decide_True.
  - by rewrite decide_False.
Qed.

(** A name no part file bears keeps what it held. *)
Lemma afterParts_other (file : string) (subdirs : list node) (before : option string) :
  ~ In file (List.map (fun dir => partFileName (nodeName dir)) subdirs) ->
  afterParts file subdirs before = before.
Proof.
  unfold afterParts. revert before.
  induction subdirs as [|dir subdirs IH]; intros before Hnot; [done |].
  simpl in *. destruct (String.eqb_spec (partFileName (nodeName dir)) file) as [E | _].
  - exfalso. apply Hnot. by left.
  - apply IH. tauto.
Qed.

(** A part-file name holds the content written last, whatever was there. *)
Lemma afterParts_written (file : string) (subdirs : list node) (x y : option string) :
  In file (List.map (fun dir => partFileName (nodeName dir)) subdirs) ->
  afterParts file subdirs x = afterParts file subdirs y.
Proof.
  unfold afterParts. revert x y.
  induction subdirs as [|dir subdirs IH]; intros x y Hin; [done |].
  simpl in *. destruct (String.eqb_spec (partFileName (nodeName dir)) file) as [E | Hne].
  - done.
  - apply IH. destruct Hin; [done | assumption].
Qed.

Lemma lookup_stale_loop (generated : list string) (names : list string)
    (files : gmap string string) (file : string) :
  foldl (fun out f => if isStale generated f then delete f out else out)
        files names !! file
  = if isStale generated file && bool_decide (file ∈ names)
    then None else files !! file.
Proof.
  revert files. induction names as [|f names IH]; intros files.
  - by rewrite andb_false_r.
  - simpl. rewrite IH. destruct (decide (file = f)) as [-> | Hne].
    + rewrite (bool_decide_eq_true_2 (f ∈ f :: names)) by left.
      rewrite andb_true_r. destruct (isStale generated f) eqn:Hs; simpl.
      * rewrite lookup_delete_eq. by case_bool_decide.
      * done.
    + assert (Hiff : bool_decide (file ∈ f :: names) = bool_decide (file ∈ names)).
      { apply bool_decide_ext. rewrite elem_of_cons.
        split; [intros [? | ?]; done | by right]. }
      rewrite Hiff. destruct (isStale generated f); [| done].
      by rewrite lookup_delete_ne by done.
Qed.

(** What the cleanup leaves: the stale names are gone, the others keep
    their content. *)
Lemma lookup_removeStale (generated : list string) (files : gmap string string)
    (file : string) :
  removeStale generated files !! file
  = if isStale generated file then None else files !! file.
Proof.
  unfold removeStale. rewrite lookup_stale_loop.
  destruct (isStale generated file); [| done]. simpl.
  case_bool_decide as Hin; [done |].
  destruct (files !! file) as [v|] eqn:Hv; [| done].
  exfalso. apply Hin. unfold readdirOut.
  apply list_elem_of_fmap. exists (file, v). split; [done |].
  by apply elem_of_map_to_list.
Qed.

Lemma outDir_generated (d : disk) :
  let subdirs := List.filter isDirectory (assets d) in
  default ∅ (outDir (generateAllAssetsClasses d))
  = removeStale (generatedFiles subdirs)
      (<["assets_app.dart" := mainContent subdirs]>
         (foldl (fun out dir => <[partFileName (nodeName dir) := partContent dir]> out)
                (default ∅ (outDir d)) subdirs)).
Proof. reflexivity. Qed.

(** The output directory after [generateAllAssetsClasses], name by name. *)
Lemma lookup_generated (d : disk) (file : string) :
  let subdirs := List.filter isDirectory (assets d) in
  default ∅ (outDir (generateAllAssetsClasses d)) !! file
  = if isStale (generatedFiles subdirs) file then None
    else if String.eqb "assets_app.dart" file then Some (mainContent subdirs)
    else afterParts file subdirs (default ∅ (outDir d) !! file).
Proof.
  intros subdirs. rewrite outDir_generated, lookup_removeStale. fold subdirs.
  destruct (isStale _ file); [done |].
  rewrite lookup_insert.
  destruct (String.eqb_spec "assets_app.dart" file) as [-> | Hne].
  - by rewrite decide_True.
  - rewrite decide_False by done. apply lookup_parts_written.
Qed.

(** C7: after a pass, a name of the output directory that ends in [.dart]
    and is not among the names the pass emitted holds no file, and a name
    that does not end in [.dart] holds what it held before. *)
Theorem stale_generated_files_deleted (d : disk) (file : string) :
  let emitted := generatedFiles (List.filter isDirectory (assets d)) in
  let before := default ∅ (outDir d) in
  let after := default ∅ (outDir (generateAllAssetsClasses d)) in
  (Str.endsWith file ".dart" = true -> ~ In file emitted -> after !! file = None)
  /\ (Str.endsWith file ".dart" = false -> after !! file = before !! file).
Proof.
  intros emitted before after. subst after. rewrite lookup_generated.
  fold emitted. split.
  - intros Hdart Hnot. apply includes_false in Hnot.
    unfold isStale. by rewrite Hnot, Hdart.
  - intros Hother.
    assert (Hnot : ~ In file emitted).
    { intros Hin. apply generatedFiles_dart in Hin. congruence. }
    unfold isStale. rewrite Hother, andb_false_r.
    destruct (String.eqb_spec "assets_app.dart" file) as [<- | _]; [done |].
    apply afterParts_other. intros Hin. apply Hnot. by right.
Qed.

(** An output directory with a stale generated file and a text file. *)
Lemma stale_generated_files_deleted_witness :
  let d := Disk [Dir "images" [File "logo.png"]] None
                (Some (<["old.dart" := "class Old {}"]> (<["notes.txt" := "keep"]> ∅)))
                (fun _ _ => false) in
  default ∅ (outDir (generateAllAssetsClasses d)) !! "old.dart" = None
  /\ default ∅ (outDir (generateAllAssetsClasses d)) !! "notes.txt" = Some "keep".
Proof.
  intros d. split.
  - apply (stale_generated_files_deleted d "old.dart"); [reflexivity |].
    vm_compute. intuition discriminate.
  - etransitivity; [apply (stale_generated_files_deleted d "notes.txt") |];
      reflexivity.
Defined.

(** ** The coordinator *)

Section CoordinatorFacts.

Context {W : Type} (assetsExist : W -> bool) (pass : W -> W * bool).

Implicit Types (s : @coordinator W) (e : @event W) (events : list (@event W)).

Lemma phaseAfter_app (p : phase) (t1 t2 : list action) :
  phaseAfter p (t1 ++ t2) = phaseAfter p t1 ≫= fun q => phaseAfter q t2.
Proof.
  revert p. induction t1 as [|a t1 IH]; intros p; [done |].
  simpl. destruct p, a; simpl; auto.
Qed.

Lemma runFullSync_sequential (s : coordinator) (inWorkspace force : bool) :
  guardConsistent s ->
  let '(s', trace) := runFullSync assetsExist pass s inWorkspace force in
  guardConsistent s'
  /\ phaseAfter (phaseOf (isSyncing s)) trace = Some (phaseOf (isSyncing s')).
Proof.
  unfold guardConsistent, runFullSync. intros Hs.
  destruct (negb (autoSync s) && negb force); [done |].
  destruct (isSyncing s) eqn:Hguard; [by rewrite Hguard |].
  destruct (negb inWorkspace); [by rewrite Hguard |].
  destruct (negb (assetsExist (world s))); [by rewrite Hguard |].
  destruct (pass (world s)) as [w' [|]]; simpl; by rewrite ?Hs.
Qed.

Lemma step_sequential (s : coordinator) (e : event) :
  guardConsistent s ->
  let '(s', trace) := step assetsExist pass s e in
  guardConsistent s'
  /\ phaseAfter (phaseOf (isSyncing s)) trace = Some (phaseOf (isSyncing s')).
Proof.
  intros Hs. destruct e as [inWs | | | hasWs | | | w]; simpl; try done.
  - destruct (syncTimer s) as [inWs|]; [| done].
    destruct (isSyncing s) eqn:Hguard; simpl.
    + split; [| done]. unfold guardConsistent in *. simpl. by rewrite Hs, Hguard.
    + pose proof (runFullSync_sequential
        (Coordinator false None (guardTimers s) (autoSync s) (world s)) inWs false) as H.
      destruct (runFullSync assetsExist pass _ _ _) as [s' trace]. apply H.
      unfold guardConsistent in *. simpl. by rewrite Hs, Hguard.
  - unfold guardConsistent in *. destruct (guardTimers s) as [|n] eqn:Hn.
    + rewrite Hn. by split.
    + destruct (isSyncing s); [| done]. simpl. split; [congruence | done].
  - destruct hasWs; [| done]. by apply runFullSync_sequential.
Qed.

Lemma run_sequential (events : list event) (s : coordinator) :
  guardConsistent s ->
  let '(s', trace) := run assetsExist pass s events in
  guardConsistent s'
  /\ phaseAfter (phaseOf (isSyncing s)) trace = Some (phaseOf (isSyncing s')).
Proof.
  revert s. induction events as [|e events IH]; intros s Hs; [done |].
  simpl. pose proof (step_sequential s e Hs) as Hstep.
  destruct (step assetsExist pass s e) as [s1 t1]. destruct Hstep as [Hs1 Ht1].
  specialize (IH s1 Hs1). destruct (run assetsExist pass s1 events) as [s2 t2].
  destruct IH as [Hs2 Ht2]. split; [done |].
  by rewrite phaseAfter_app, Ht1.
Qed.

Lemma runFullSync_guarded (s : coordinator) (inWorkspace force : bool) :
  isSyncing s = true -> runFullSync assetsExist pass s inWorkspace force = (s, []).
Proof.
  intros Hguard. unfold runFullSync. rewrite Hguard.
  by destruct (negb (autoSync s) && negb force).
Qed.

(** C8: whatever the events, the passes of a run come one after the other,
    each ended (in success or in failure) and followed by the clearing of
    the guard before the next one starts; while the guard is set no event
    starts a pass, and the debounce timer firing then does nothing to the
    workspace folder and leaves the guard as it is. *)
Theorem passes_sequential :
  (forall auto w events,
      let '(s, trace) := run assetsExist pass (initial auto w) events in
      phaseAfter Idle trace = Some (phaseOf (isSyncing s)))
  /\ (forall s e, isSyncing s = true -> ~ In PassStarted (step assetsExist pass s e).2)
  /\ (forall s, isSyncing s = true ->
        (step assetsExist pass s DebounceElapsed).2 = []
        /\ world (step assetsExist pass s DebounceElapsed).1 = world s
        /\ isSyncing (step assetsExist pass s DebounceElapsed).1 = true).
Proof.
  split; [| split].
  - intros auto w events.
    pose proof (run_sequential events (initial auto w) eq_refl) as H.
    destruct (run assetsExist pass _ events) as [s trace]. apply H.
  - intros s e Hguard.
    destruct e as [inWs | | | hasWs | | | w]; simpl; try tauto.
    + destruct (syncTimer s); rewrite ?Hguard; simpl; tauto.
    + destruct (guardTimers s); simpl; [tauto | intros [? | []]; discriminate].
    + destruct hasWs; [| simpl; tauto]. rewrite runFullSync_guarded by done.
      simpl. tauto.
  - intros s Hguard. simpl.
    destruct (syncTimer s); rewrite ?Hguard; done.
Qed.

End CoordinatorFacts.

(** A guarded coordinator of the extension whose debounce timer fires. *)
Lemma passes_sequential_witness :
  let s := Coordinator true (Some true) 1 true
             (Some (Disk [Dir "images" [File "logo.png"]] None None (fun _ _ => false))) in
  isSyncing s = true
  /\ (step assetsPresent syncPass s DebounceElapsed).2 = []
  /\ world (step assetsPresent syncPass s DebounceElapsed).1 = world s
  /\ isSyncing (step assetsPresent syncPass s DebounceElapsed).1 = true.
Proof.
  intros s. split; [reflexivity |].
  apply (passes_sequential assetsPresent syncPass). reflexivity.
Defined.

(** ** The manifest *)

Lemma findIndexFrom_Some {A} (p : A -> nat -> bool) (l : list A) (i j : nat) :
  findIndexFrom p i l = Some j ->
  exists pre x post,
    l = pre ++ x :: post /\ j = i + length pre /\ p x j = true
    /\ forall k y, pre !! k = Some y -> p y (i + k) = false.
Proof.
  revert i. induction l as [|x l IH]; intros i; [done |]. simpl.
  destruct (p x i) eqn:Hp.
  - intros [= <-]. exists [], x, l.
    split; [done |]. split; [simpl; lia |]. split; [done |]. by intros k y.
  - intros (pre & y & post & -> & -> & Hy & Hpre)%IH.
    exists (x :: pre), y, post.
    split; [done |]. split; [simpl; lia |].
    split; [by replace (i + length (x :: pre)) with (S i + length pre) by (simpl; lia) |].
    intros [|k] z; simpl.
    + intros [= <-]. by rewrite Nat.add_0_r.
    + intros Hk. replace (i + S k) with (S i + k) by lia. by apply Hpre.
Qed.

Lemma findIndexFrom_None {A} (p : A -> nat -> bool) (l : list A) (i : nat) :
  findIndexFrom p i l = None ->
  forall k y, l !! k = Some y -> p y (i + k) = false.
Proof.
  revert i. induction l as [|x l IH]; intros i; [done |]. simpl.
  destruct (p x i) eqn:Hp; [done |]. intros Hnone [|k] y; simpl.
  - intros [= <-]. by rewrite Nat.add_0_r.
  - intros Hk. replace (i + S k) with (S i + k) by lia. by apply (IH (S i)).
Qed.

(** The two locating steps only add lines, and the index they return is
    that of a line. *)
Lemma locateFlutter_spec (lines : list string) :
  let '(lines1, flutterIndex) := locateFlutter lines in
  flutterIndex < length lines1 /\ lines `sublist_of` lines1.
Proof.
  unfold locateFlutter, findIndex.
  destruct (findIndexFrom _ 0 lines) as [i|] eqn:E.
  - apply findIndexFrom_Some in E as (pre & x & post & -> & -> & _).
    split; [rewrite length_app; simpl; lia | done].
  - split; [rewrite length_app; simpl; lia | by apply sublist_inserts_r].
Qed.

Lemma splice_sublist {A} (l : list A) (i : nat) (x : A) : l `sublist_of` splice l i x.
Proof.
  unfold splice. rewrite <- (take_drop i l) at 1.
  apply sublist_app; [done |]. by apply sublist_cons.
Qed.

Lemma locateAssets_spec (lines : list string) (flutterIndex : nat) :
  flutterIndex < length lines ->
  let '(lines2, assetsIndex) := locateAssets lines flutterIndex in
  assetsIndex < length lines2 /\ lines `sublist_of` lines2.
Proof.
  intros Hf. unfold locateAssets, findIndex.
  destruct (findIndexFrom _ 0 lines) as [i|] eqn:E.
  - apply findIndexFrom_Some in E as (pre & x & post & -> & -> & _).
    split; [rewrite length_app; simpl; lia | done].
  - split; [| apply splice_sublist].
    unfold splice. rewrite length_app, length_take. simpl. rewrite length_drop. lia.
Qed.

(** The insertion loop puts the missing entries, in order, right after the
    line at [assetsIndex]. *)
Lemma insertMissing_spec (existing required : list string) (assetsIndex : nat)
    (lines : list string) :
  assetsIndex < length lines ->
  insertMissing existing required assetsIndex lines
  = (take (S assetsIndex) lines
       ++ List.map entryLine (missingEntries existing required)
       ++ drop (S assetsIndex) lines,
     length (missingEntries existing required)).
Proof.
  intros Ha. unfold insertMissing.
  set (f := fun '(lines, addedCount) reqAsset => _).
  assert (Hgen : forall added,
    foldl f (take (S assetsIndex) lines ++ List.map entryLine added
               ++ drop (S assetsIndex) lines, length added) required
    = (take (S assetsIndex) lines
         ++ List.map entryLine (added ++ missingEntries existing required)
         ++ drop (S assetsIndex) lines,
       length (added ++ missingEntries existing required))).
  { induction required as [|r required IH]; intros added.
    - simpl. by rewrite app_nil_r.
    - simpl. destruct (Str.includes existing r) eqn:Hr; simpl; [apply IH |].
      replace (splice _ _ _) with
        (take (S assetsIndex) lines ++ List.map entryLine (added ++ [r])
           ++ drop (S assetsIndex) lines).
      + replace (S (length added)) with (length (added ++ [r]))
          by (rewrite length_app; simpl; lia).
        rewrite IH. by rewrite <- !app_assoc.
      + unfold splice.
        set (before := take (S assetsIndex) lines ++ List.map entryLine added).
        assert (Hlen : assetsIndex + 1 + length added = length before).
        { subst before. rewrite length_app, length_take, length_map. lia. }
        replace (take (S assetsIndex) lines ++ List.map entryLine added
                   ++ drop (S assetsIndex) lines)
          with (before ++ drop (S assetsIndex) lines)
          by (subst before; by rewrite <- app_assoc).
        rewrite Hlen, take_app_length, drop_app_length. subst before.
        rewrite List.map_app. simpl. by rewrite <- !app_assoc. }
  specialize (Hgen []). simpl in Hgen. rewrite take_drop in Hgen.
  replace (take (S assetsIndex) lines ++ drop (S assetsIndex) lines) with lines
    in Hgen by (by rewrite take_drop).
  exact Hgen.
Qed.






Lemma syncPubspecYaml_pubspec (d : disk) (content : string) :
  pubspec d = Some content ->
  pubspec (syncPubspecYaml d)
  = Some (Str.join nl (syncLines d (Str.split "010" content))).
Proof. unfold syncPubspecYaml. by intros ->. Qed.








Lemma length_split_slashes (s : string) :
  length (Str.split "/" s) = S (slashes s).
Proof.
  induction s as [|c r IH]; [done |]. simpl.
  destruct (Char.eqb c "/"); simpl; [by rewrite IH |].
  destruct (Str.split "/" r); simpl in *; lia.
Qed.

Lemma isPruneCandidate_spec (trimmed : string) :
  isPruneCandidate trimmed = true
  <-> Str.startsWith trimmed "- assets/" = true /\ 2 <= slashes trimmed.
Proof.
  unfold isPruneCandidate.
  rewrite andb_true_iff, Nat.ltb_lt, length_split_slashes. intuition lia.
Qed.






(** ** String-valued properties *)

Lemma string_app_inv_head (p x y : string) : p +:+ x = p +:+ y -> x = y.
Proof.
  induction p as [|c p IH]; [done |]. rewrite !string_app_cons.
  intros [= H]. by apply IH.
Qed.

Lemma noSlash_app (a b : string) : noSlash (a +:+ b) = noSlash a && noSlash b.
Proof. apply all_app. Qed.

Lemma noSlash_cons (c : ascii) (r : string) :
  noSlash (String c r) = negb (Char.eqb c "/") && noSlash r.
Proof. reflexivity. Qed.

Lemma noSlash_slash (r : string) : noSlash (String "/" r) = false.
Proof. reflexivity. Qed.

(** Two texts that agree up to their first [/] agree before it. *)
Lemma first_segment_inj (a b x y : string) :
  noSlash a = true -> noSlash b = true ->
  a +:+ "/" +:+ x = b +:+ "/" +:+ y -> a = b.
Proof.
  revert b. induction a as [|c a IH]; intros [|c' b] Ha Hb E.
  - done.
  - rewrite string_app_nil_l, string_app_cons in E. injection E as <- _.
    by rewrite noSlash_slash in Hb.
  - rewrite string_app_nil_l, string_app_cons in E. injection E as -> _.
    by rewrite noSlash_slash in Ha.
  - rewrite !string_app_cons in E. injection E as <- E.
    rewrite noSlash_cons in Ha, Hb.
    apply andb_true_iff in Ha as [_ Ha], Hb as [_ Hb].
    f_equal. by apply (IH b).
Qed.

Lemma map_app_string (f : ascii -> ascii) (a b : string) :
  Str.map f (a +:+ b) = Str.map f a +:+ Str.map f b.
Proof.
  induction a as [|c a IH]; [done |]. rewrite string_app_cons. simpl.
  by rewrite IH.
Qed.

Lemma forwardSlash_nested (rel name : string) :
  forwardSlash (nestedRelativePath rel name)
  = forwardSlash rel +:+ "/" +:+ forwardSlash name.
Proof. unfold forwardSlash, nestedRelativePath. by rewrite !map_app_string. Qed.

(** A name without backslash is left alone. *)
Lemma forwardSlash_id (name : string) :
  noBackslash name = true -> forwardSlash name = name.
Proof.
  induction name as [|c r IH]; [done |]. simpl.
  intros [Hc Hr]%andb_true_iff. apply negb_true_iff in Hc.
  unfold forwardSlash in *. simpl. by rewrite Hc, IH.
Qed.

(** The value of a file below [ds] continues the forward-slashed
    [relativePath]. *)
Lemma assetValue_descend (rel : string) (ds : list string) (f : string) :
  exists t, assetValue (descend rel ds) f
            = "assets/" +:+ forwardSlash rel +:+ "/" +:+ t.
Proof.
  revert rel. induction ds as [|d ds IH]; intros rel.
  - by exists f.
  - simpl. destruct (IH (nestedRelativePath rel d)) as [t ->].
    exists (forwardSlash d +:+ "/" +:+ t).
    by rewrite forwardSlash_nested, !string_app_assoc.
Qed.

Lemma occurrences_app (v : string) (l1 l2 : list string) :
  occurrences v (l1 ++ l2) = occurrences v l1 + occurrences v l2.
Proof. unfold occurrences. by rewrite List.filter_app, length_app. Qed.

Lemma occurrences_none (v : string) (l : list string) :
  ~ In v l -> occurrences v l = 0.
Proof.
  unfold occurrences. induction l as [|x l IH]; [done |]. simpl.
  intros Hnot. destruct (String.eqb_spec v x) as [-> | _]; [tauto |].
  apply IH. tauto.
Qed.

Lemma occurrences_map_inj (g : string -> string) (v : string) (l : list string) :
  (forall x y, g x = g y -> x = y) ->
  occurrences (g v) (List.map g l) = occurrences v l.
Proof.
  intros Hinj. unfold occurrences.
  induction l as [|x l IH]; [done |]. simpl.
  destruct (String.eqb_spec (g v) (g x)) as [E | Hne];
    destruct (String.eqb_spec v x) as [E' | Hne']; simpl; try by rewrite IH.
  - by apply Hinj in E.
  - by subst.
Qed.

Lemma distinct_NoDup (l : list string) : distinct l = true -> NoDup l.
Proof.
  induction l as [|x l IH]; [constructor |]. simpl.
  intros [Hx Hl]%andb_true_iff. constructor; [| by apply IH].
  apply negb_true_iff, includes_false in Hx. by rewrite list_elem_of_In.
Qed.

Lemma occurrences_NoDup (v : string) (l : list string) :
  NoDup l -> In v l -> occurrences v l = 1.
Proof.
  intros Hnd Hin. apply list_elem_of_In, list_elem_of_split in Hin as (l1 & l2 & ->).
  apply NoDup_app in Hnd as (_ & H1 & Hnd2). apply NoDup_cons in Hnd2 as [H2 _].
  rewrite occurrences_app. rewrite (occurrences_none v l1).
  - unfold occurrences at 1. simpl. rewrite String.eqb_refl. simpl.
    fold (occurrences v l2). rewrite occurrences_none; [done |].
    by rewrite <- list_elem_of_In.
  - rewrite <- list_elem_of_In. intros Hin. apply (H1 v Hin). by left.
Qed.

Lemma stringValues_app (a b : list dartClass) :
  stringValues (a ++ b) = stringValues a ++ stringValues b.
Proof. apply flat_map_app. Qed.

Lemma stringValues_flat_map {A} (g : A -> list dartClass) (l : list A) :
  stringValues (flat_map g l) = flat_map (fun x => stringValues (g x)) l.
Proof.
  induction l as [|x l IH]; [done |]. simpl. by rewrite stringValues_app, IH.
Qed.

(** The values a directory contributes: those of its listed files, then
    those of its listed subdirectories. *)
Lemma stringValues_classesOf (name : string) (items : list node) (rel cls : string) :
  stringValues (classesOf (Dir name items) rel cls)
  = List.map (fun file => assetValue rel (nodeName file)) (List.filter isListedFile items)
    ++ flat_map (fun dir => stringValues
                   (classesOf dir (nestedRelativePath rel (nodeName dir))
                              (nestedClassName cls (nodeName dir))))
                (List.filter isListedDir items).
Proof.
  rewrite classesOf_unfold. unfold stringValues at 1. simpl.
  fold (stringValues (flat_map (fun dir => classesOf dir
          (nestedRelativePath rel (nodeName dir))
          (nestedClassName cls (nodeName dir))) (List.filter isListedDir items))).
  rewrite stringValues_flat_map. f_equal.
  rewrite flat_map_app.
  replace (flat_map memberValue (List.map (classMember cls) (List.filter isListedDir items)))
    with (@nil string)
    by (induction (List.filter isListedDir items); [done | by simpl]).
  simpl. induction (List.filter isListedFile items) as [|x l IH]; [done |].
  simpl. by rewrite IH.
Qed.

Lemma values_continue_path (dir : node) :
  forall rel cls v,
    In v (stringValues (classesOf dir rel cls)) ->
    exists t, v = "assets/" +:+ forwardSlash rel +:+ "/" +:+ t.
Proof.
  induction dir as [name | name items IH] using node_nested_ind;
    intros rel cls v; [done |].
  rewrite stringValues_classesOf, in_app_iff.
  intros [(file & <- & _)%in_map_iff | (d & [Hd _]%filter_In & Hv)%in_flat_map].
  - by eexists.
  - apply (proj1 (List.Forall_forall _ _) IH d Hd) in Hv as [t ->].
    exists (forwardSlash (nodeName d) +:+ "/" +:+ t).
    by rewrite forwardSlash_nested, !string_app_assoc.
Qed.

Lemma wellNamed_unfold (name : string) (items : list node) :
  wellNamed (Dir name items) = wellNamedEntries items && forallb wellNamed items.
Proof. reflexivity. Qed.

Lemma wellNamedEntries_spec (items : list node) :
  wellNamedEntries items = true ->
  NoDup (List.map nodeName items)
  /\ forall item, In item items ->
       noSlash (nodeName item) = true
       /\ (isDirectory item = true -> forwardSlash (nodeName item) = nodeName item).
Proof.
  unfold wellNamedEntries. intros [Hd Hall]%andb_true_iff.
  split; [by apply distinct_NoDup |].
  intros item Hin. apply (proj1 (forallb_forall _ _) Hall) in Hin.
  apply andb_true_iff in Hin as [Hs Hb]. split; [done |].
  intros Hdir. apply forwardSlash_id.
  destruct item as [f | dname kids]; [discriminate Hdir | exact Hb].
Qed.

Lemma NoDup_map_filter {A B} (g : A -> B) (p : A -> bool) (l : list A) :
  NoDup (List.map g l) -> NoDup (List.map g (List.filter p l)).
Proof.
  induction l as [|x l IH]; [done |]. simpl.
  intros [Hx Hl]%NoDup_cons. destruct (p x); [| by apply IH].
  simpl. apply NoDup_cons. split; [| by apply IH].
  intros Hin. apply Hx.
  apply list_elem_of_In, in_map_iff in Hin as (y & Hy & [Hin _]%filter_In).
  apply list_elem_of_In, in_map_iff. by exists y.
Qed.

(** A value that continues with the segment [d] does not come from a
    sibling directory with another name. *)
Lemma sibling_directories_silent (l : list node) (rel d t : string)
    (cls : node -> string) :
  noSlash d = true ->
  (forall item, In item l ->
     nodeName item <> d /\ noSlash (nodeName item) = true
     /\ (isDirectory item = true -> forwardSlash (nodeName item) = nodeName item)) ->
  occurrences ("assets/" +:+ forwardSlash rel +:+ "/" +:+ d +:+ "/" +:+ t)
    (flat_map (fun dir => stringValues
                 (classesOf dir (nestedRelativePath rel (nodeName dir)) (cls dir)))
              (List.filter isListedDir l)) = 0.
Proof.
  intros Hd Hl. apply occurrences_none.
  intros (item & [Hin Hlisted]%filter_In & Hv)%in_flat_map.
  destruct (Hl item Hin) as (Hne & Hs & Hfwd).
  apply values_continue_path in Hv as [t' Hv].
  rewrite forwardSlash_nested, Hfwd in Hv by (by apply isListedDir_isDirectory).
  rewrite !string_app_assoc in Hv.
  do 3 apply string_app_inv_head in Hv.
  apply Hne. symmetry. by apply (first_segment_inj _ _ t t').
Qed.

Lemma assetValue_inj (rel f g : string) : assetValue rel f = assetValue rel g -> f = g.
Proof. unfold assetValue. intros H. by do 3 apply string_app_inv_head in H. Qed.

Lemma noSlash_continued (a t : string) : noSlash (a +:+ "/" +:+ t) = false.
Proof.
  rewrite noSlash_app. change ("/" +:+ t) with (String "/"%char t).
  rewrite noSlash_slash. apply andb_false_r.
Qed.

(** In a well-named tree, a listed file reached through listed
    directories has its value emitted exactly once. *)
Lemma listed_file_value_once (dir : node) :
  wellNamed dir = true ->
  forall rel cls ds f,
    assetFile (children dir) ds f -> Str.startsWith f "." = false ->
    occurrences (assetValue (descend rel ds) f)
                (stringValues (classesOf dir rel cls)) = 1.
Proof.
  induction dir as [name | name items IH] using node_nested_ind;
    intros Hwn rel cls ds f Hfile Hdot; [by inversion Hfile |].
  rewrite wellNamed_unfold in Hwn. apply andb_true_iff in Hwn as [Hentries Hkids].
  apply wellNamedEntries_spec in Hentries as [Hnodup Hnames].
  rewrite stringValues_classesOf, occurrences_app. simpl in Hfile.
  inversion Hfile as [? ? Hin | ? d kids ds' ? Hin Hvariant Hdeeper]; subst.
  - (* the file is an entry of this directory *)
    rewrite <- (List.map_map nodeName (assetValue rel)).
    rewrite occurrences_map_inj by apply assetValue_inj.
    rewrite occurrences_NoDup.
    + rewrite occurrences_none; [done |].
      intros (d & [Hd Hlisted]%filter_In & Hv)%in_flat_map.
      apply values_continue_path in Hv as [t Hv]. unfold descend, assetValue in Hv.
      simpl in Hv. rewrite forwardSlash_nested, !string_app_assoc in Hv.
      do 3 apply string_app_inv_head in Hv.
      destruct (Hnames _ Hin) as [Hslash _]. simpl in Hslash.
      by rewrite Hv, noSlash_continued in Hslash.
    + by apply NoDup_map_filter.
    + apply in_map_iff. exists (File f). split; [done |].
      apply filter_In. split; [done |]. unfold isListedFile. simpl. by rewrite Hdot.
  - (* the file lies below the entry [Dir d kids] *)
    destruct (Hnames _ Hin) as [Hslash Hfwd]. simpl in Hslash, Hfwd.
    destruct (assetValue_descend (nestedRelativePath rel d) ds' f) as [t Hv].
    rewrite forwardSlash_nested, Hfwd, !string_app_assoc in Hv by done.
    change (descend rel (d :: ds')) with (descend (nestedRelativePath rel d) ds').
    rewrite occurrences_none.
    2:{ intros (file & Hfv & [Hfin _]%filter_In)%in_map_iff.
        rewrite Hv in Hfv. unfold assetValue in Hfv.
        do 3 apply string_app_inv_head in Hfv.
        destruct (Hnames _ Hfin) as [Hfs _].
        by rewrite Hfv, noSlash_continued in Hfs. }
    apply in_split in Hin as (pre & post & ->).
    rewrite List.map_app in Hnodup. simpl in Hnodup.
    apply NoDup_app in Hnodup as (_ & Hpre & Hpost).
    apply NoDup_cons in Hpost as [Hpost _].
    rewrite filter_middle, !flat_map_app, !occurrences_app.
    assert (Hlisted : isListedDir (Dir d kids) = true)
      by (unfold isListedDir; simpl; by rewrite Hvariant).
    rewrite Hlisted. simpl. rewrite app_nil_r.
    rewrite Hv at 1 3.
    rewrite (sibling_directories_silent pre rel d t), (sibling_directories_silent post rel d t).
    + simpl. rewrite Nat.add_0_r.
      apply Forall_app in IH as [_ IH]. apply Forall_cons_1 in IH as [IH _].
      apply IH; [| done | done].
      rewrite forallb_app in Hkids. simpl in Hkids.
      by apply andb_true_iff in Hkids as [_ [? _]%andb_true_iff].
    + done.
    + intros item Hitem. split; [| apply Hnames, in_app_iff; right; by right].
      intros E. apply Hpost. rewrite <- E.
      apply list_elem_of_In, in_map_iff. by exists item.
    + done.
    + intros item Hitem. split; [| apply Hnames, in_app_iff; by left].
      intros E. apply (Hpre d); [| by left]. rewrite <- E.
      apply list_elem_of_In, in_map_iff. by exists item.
Qed.

(** C3, as the source has it: in a category whose entries are well named,
    a regular file whose name does not start with a dot and that is
    reached through non-variant directories has exactly one string-valued
    property of value [assets/<relativePath>/<filename>] in the class tree
    of the category, the tree whose rendering is the generated text. *)
Theorem listed_files_emitted_once
    (items : list node) (rootFolder cls : string) (ds : list string) (f : string) :
  wellNamed (Dir rootFolder items) = true ->
  assetFile items ds f ->
  Str.startsWith f "." = false ->
  generateClassRecursively items rootFolder cls
  = render (classTree items rootFolder cls)
  /\ occurrences (assetValue (descend rootFolder ds) f)
                 (stringValues (classTree items rootFolder cls)) = 1.
Proof.
  intros Hwn Hfile Hdot. split; [apply generateClassRecursively_render |].
  unfold classTree.
  rewrite (stringValues_classesOf "" items), <- (stringValues_classesOf rootFolder items).
  by apply listed_file_value_once.
Qed.

Lemma listed_files_emitted_once_witness :
  occurrences "assets/images/icons/user.svg"
    (stringValues (classTree [File "logo.png"; Dir "icons" [File "user.svg"]]
                             "images" "_Image")) = 1.
Proof.
  apply (listed_files_emitted_once
           [File "logo.png"; Dir "icons" [File "user.svg"]] "images" "_Image"
           ["icons"] "user.svg").
  - reflexivity.
  - apply (assetFile_below _ "icons" [File "user.svg"]);
      [right; by left | reflexivity | apply assetFile_here; by left].
  - reflexivity.
Defined.

(** C3 as stated fails: a file whose name starts with a dot is a file of
    the tree, outside any variant directory, and gets no property. *)
Lemma dotfile_not_emitted :
  ~ (forall items rootFolder cls ds f,
       assetFile items ds f ->
       occurrences (assetValue (descend rootFolder ds) f)
                   (stringValues (classTree items rootFolder cls)) = 1).
Proof.
  intros H.
  specialize (H [File ".gitkeep"] "images" "_Image" [] ".gitkeep").
  assert (Hfile : assetFile [File ".gitkeep"] [] ".gitkeep")
    by (apply assetFile_here; by left).
  apply H in Hfile. vm_compute in Hfile. discriminate.
Qed.

(** ** A second pass *)

Lemma afterParts_idem (file : string) (subdirs : list node) (x : option string) :
  afterParts file subdirs (afterParts file subdirs x) = afterParts file subdirs x.
Proof.
  destruct (in_dec String.string_dec file
              (List.map (fun dir => partFileName (nodeName dir)) subdirs)) as [Hin | Hnot].
  - by apply afterParts_written.
  - by rewrite !afterParts_other.
Qed.

(** Generating again into the directory just generated changes nothing. *)
Lemma generate_again (d d' : disk) :
  assets d' = assets d ->
  outDir d' = outDir (generateAllAssetsClasses d) ->
  outDir (generateAllAssetsClasses d') = outDir (generateAllAssetsClasses d).
Proof.
  intros Hassets Hout.
  change (Some (default ∅ (outDir (generateAllAssetsClasses d')))
          = Some (default ∅ (outDir (generateAllAssetsClasses d)))).
  f_equal. apply map_eq. intros file.
  rewrite (lookup_generated d'), Hout, Hassets, !(lookup_generated d).
  destruct (isStale _ file); [done |].
  destruct (String.eqb "assets_app.dart" file); [done |].
  apply afterParts_idem.
Qed.

Lemma noNewline_cons (c : ascii) (r : string) :
  noNewline (String c r) = negb (Char.eqb c "010") && noNewline r.
Proof. reflexivity. Qed.

Lemma split_noNewline (w : string) :
  noNewline w = true -> Str.split "010" w = [w].
Proof.
  induction w as [|c w IH]; [done |]. rewrite noNewline_cons.
  intros [Hc Hw]%andb_true_iff. apply negb_true_iff in Hc.
  simpl. by rewrite Hc, IH.
Qed.

Lemma split_line_then (w rest : string) :
  noNewline w = true ->
  Str.split "010" (w +:+ nl +:+ rest) = w :: Str.split "010" rest.
Proof.
  induction w as [|c w IH]; [done |]. rewrite noNewline_cons.
  intros [Hc Hw]%andb_true_iff. apply negb_true_iff in Hc.
  rewrite string_app_cons. simpl. by rewrite Hc, IH.
Qed.

(** Joining lines and splitting the text again gives the lines back. *)
Lemma split_join (lines : list string) :
  lines <> [] -> forallb noNewline lines = true ->
  Str.split "010" (Str.join nl lines) = lines.
Proof.
  induction lines as [|w [|w' ws] IH]; [done | |]; intros _ Hall.
  - simpl in *. apply split_noNewline. by apply andb_true_iff in Hall as [? _].
  - change (Str.join nl (w :: w' :: ws)) with (w +:+ nl +:+ Str.join nl (w' :: ws)).
    apply andb_true_iff in Hall as [Hw Hrest]. rewrite split_line_then by done.
    f_equal. by apply IH.
Qed.

Lemma split_pieces (s : string) : forallb noNewline (Str.split "010" s) = true.
Proof.
  induction s as [|c s IH]; [done |]. simpl.
  destruct (Char.eqb c "010") eqn:Hc; [done |].
  destruct (Str.split "010" s) as [|w ws]; simpl in *.
  - by rewrite noNewline_cons, Hc.
  - apply andb_true_iff in IH as [Hw Hws]. by rewrite noNewline_cons, Hc, Hw, Hws.
Qed.

(** [trim] leaves alone a text that starts and ends with something else
    than white space. *)
Lemma dropWhileEnd_last (p : ascii -> bool) (a : string) (c : ascii) :
  p c = false ->
  Str.dropWhileEnd p (a +:+ String c "") = a +:+ String c "".
Proof.
  intros Hc. induction a as [|x a IH]; [simpl; by rewrite Hc |].
  rewrite string_app_cons. simpl. rewrite IH. by destruct a.
Qed.

Lemma dropWhileEnd_first (p : ascii -> bool) (c : ascii) (r : string) :
  p c = false -> exists r', Str.dropWhileEnd p (String c r) = String c r'.
Proof.
  intros Hc. simpl. destruct (Str.dropWhileEnd p r); [| by eexists].
  rewrite Hc. by eexists.
Qed.

Lemma trim_entryLine (rel : string) :
  Str.trim (entryLine (manifestEntry rel)) = manifestEntry rel.
Proof.
  unfold Str.trim, entryLine, manifestEntry.
  change (Str.dropWhile Char.isSpace ("    " +:+ "- assets/" +:+ forwardSlash rel +:+ "/"))
    with ("- assets/" +:+ forwardSlash rel +:+ "/").
  rewrite <- !string_app_assoc. apply dropWhileEnd_last. reflexivity.
Qed.

Lemma requiredAssets_form (items : list node) (r : string) :
  In r (requiredAssets items) -> exists rel, r = manifestEntry rel.
Proof.
  unfold requiredAssets. intros (dir & _ & Hr)%in_flat_map.
  revert Hr. generalize (nodeName dir) as rel. revert r.
  induction dir as [name | name kids IH] using node_nested_ind; intros r rel; [done |].
  rewrite scanDirs_unfold. intros [<- | (k & [Hk _]%filter_In & Hr)%in_flat_map].
  - by eexists.
  - by apply (proj1 (List.Forall_forall _ _) IH k Hk) in Hr.
Qed.

(** The filter looks at the trimmed line only. *)
Lemma keepLine_trim (d : disk) (l l' : string) :
  Str.trim l = Str.trim l' -> keepLine d l = keepLine d l'.
Proof. unfold keepLine. by intros ->. Qed.

Lemma startsWith_app (line pre : string) :
  Str.startsWith line pre = true -> exists rest, line = pre +:+ rest.
Proof.
  revert line. induction pre as [|c pre IH]; intros line; [by exists line |].
  destruct line as [|x line]; [done |]. simpl.
  intros [Hc Hrest]%andb_true_iff. apply Ascii.eqb_eq in Hc as <-.
  apply IH in Hrest as [rest ->]. by exists rest.
Qed.

Lemma keepLine_flutter (d : disk) (line : string) :
  Str.startsWith line "flutter:" = true -> keepLine d line = true.
Proof.
  intros [rest ->]%startsWith_app. unfold keepLine, Str.trim.
  change (Str.dropWhile Char.isSpace ("flutter:" +:+ rest))
    with (String "f"%char ("lutter:" +:+ rest)).
  by destruct (dropWhileEnd_first Char.isSpace "f" ("lutter:" +:+ rest) eq_refl)
    as [r' ->].
Qed.

Lemma keepLine_assets (d : disk) (line : string) :
  Str.startsWith line "  assets:" = true -> keepLine d line = true.
Proof.
  intros [rest ->]%startsWith_app. unfold keepLine, Str.trim.
  change (Str.dropWhile Char.isSpace ("  assets:" +:+ rest))
    with (String "a"%char ("ssets:" +:+ rest)).
  by destruct (dropWhileEnd_first Char.isSpace "a" ("ssets:" +:+ rest) eq_refl)
    as [r' ->].
Qed.

(** What the output directory holds does not matter to a line that refers
    inside [assets/]. *)
Lemma keepLine_inside (d d' : disk) (line : string) :
  assets d' = assets d -> refersInside line = true ->
  keepLine d' line = keepLine d line.
Proof.
  unfold refersInside, keepLine, existsSync. intros Hassets Hline.
  destruct (isPruneCandidate (Str.trim line)); [| done].
  destruct (insideAssets (dirPathStr (Str.trim line))); [| done].
  by rewrite Hassets.
Qed.

Lemma findIndexFrom_first {A} (p : A -> bool) (pre post : list A) (x : A) (i : nat) :
  forallb (fun y => negb (p y)) pre = true -> p x = true ->
  findIndexFrom (fun y _ => p y) i (pre ++ x :: post) = Some (i + length pre).
Proof.
  revert i. induction pre as [|y pre IH]; intros i Hpre Hx; simpl.
  - by rewrite Hx, Nat.add_0_r.
  - simpl in Hpre. apply andb_true_iff in Hpre as [Hy Hpre].
    apply negb_true_iff in Hy. rewrite Hy, IH by done. f_equal. lia.
Qed.

Lemma findIndexFrom_found {A} (p : A -> nat -> bool) (l : list A) (k : nat) (x : A) :
  l !! k = Some x -> p x k = true -> exists j, findIndexFrom p 0 l = Some j.
Proof.
  intros Hk Hp. destruct (findIndexFrom p 0 l) as [j|] eqn:E; [by exists j |].
  pose proof (findIndexFrom_None p l 0 E k x Hk) as Hnone. simpl in Hnone. congruence.
Qed.

(** After [locateFlutter], a first [flutter:] line and what follows it. *)
Lemma locateFlutter_decomposition (lines : list string) :
  let '(lines1, flutterIndex) := locateFlutter lines in
  exists P F R,
    lines1 = P ++ F :: R /\ flutterIndex = length P
    /\ forallb (fun l => negb (Str.startsWith l "flutter:")) P = true
    /\ Str.startsWith F "flutter:" = true
    /\ (forall l, In l lines1 -> In l lines \/ In l [""; "flutter:"; "  assets:"]).
Proof.
  unfold locateFlutter, findIndex.
  destruct (findIndexFrom _ 0 lines) as [i|] eqn:E.
  - apply findIndexFrom_Some in E as (P & F & R & -> & -> & HF & HP).
    exists P, F, R. repeat split; [| done | by left].
    apply forallb_forall. intros l Hl.
    apply list_elem_of_In, list_elem_of_lookup in Hl as [k Hk].
    by rewrite (HP k l Hk).
  - exists (lines ++ [""]), "flutter:", ["  assets:"]. repeat split.
    + by rewrite <- app_assoc.
    + rewrite !length_app. simpl. lia.
    + rewrite forallb_app. simpl. rewrite andb_true_r.
      apply forallb_forall. intros l Hl.
      apply list_elem_of_In, list_elem_of_lookup in Hl as [k Hk].
      by rewrite (findIndexFrom_None _ _ _ E k l Hk).
    + intros l [? | ?]%in_app_iff; [by left | by right].
Qed.

(** After both locating steps: a first [flutter:] line and, somewhere
    below it, the [assets:] line at [assetsIndex]. *)
Lemma locate_decomposition (lines : list string) :
  let '(lines1, flutterIndex) := locateFlutter lines in
  let '(lines2, assetsIndex) := locateAssets lines1 flutterIndex in
  exists P F M A Q,
    lines2 = P ++ F :: M ++ A :: Q /\ assetsIndex = length P + 1 + length M
    /\ forallb (fun l => negb (Str.startsWith l "flutter:")) P = true
    /\ Str.startsWith F "flutter:" = true
    /\ Str.startsWith A "  assets:" = true
    /\ (forall l, In l lines2 -> In l lines \/ In l [""; "flutter:"; "  assets:"]).
Proof.
  pose proof (locateFlutter_decomposition lines) as H1.
  destruct (locateFlutter lines) as [lines1 f].
  destruct H1 as (P & F & R & -> & -> & HP & HF & Hfrom).
  unfold locateAssets, findIndex.
  destruct (findIndexFrom _ 0 (P ++ F :: R)) as [a|] eqn:E.
  - apply findIndexFrom_Some in E as (pre & A & post & E & -> & HA & _).
    apply andb_true_iff in HA as [Hlt HA]. apply Nat.ltb_lt in Hlt. simpl in Hlt.
    apply app_eq_app in E as [l [[-> E] | [-> E]]].
    + rewrite length_app in Hlt. lia.
    + destruct l as [|x M].
      * rewrite app_nil_r in Hlt. lia.
      * simpl in E. injection E as <- ->.
        exists P, F, M, A, post. repeat split; try done.
        rewrite length_app. simpl. lia.
  - exists P, F, [], "  assets:", R. repeat split; try done.
    + unfold splice.
      replace (length P + 1) with (length (P ++ [F])) by (rewrite length_app; simpl; lia).
      replace (P ++ F :: R) with ((P ++ [F]) ++ R) by (by rewrite <- app_assoc).
      rewrite take_app_length, drop_app_length. by rewrite <- app_assoc.
    + unfold splice. intros l [Hl | [<- | Hl]]%in_app_iff.
      * apply Hfrom. apply list_elem_of_In in Hl.
        apply list_elem_of_In. eapply elem_of_sublist; [exact Hl | apply sublist_take].
      * right. right. right. by left.
      * apply Hfrom. apply list_elem_of_In in Hl.
        apply list_elem_of_In. eapply elem_of_sublist; [exact Hl | apply sublist_drop].
Qed.

(** Membership in appended lists, by cases. *)
Ltac in_cases :=
  repeat (progress (rewrite ?in_app_iff in *; simpl in *)); tauto.

(** The lines of a first pass before the final filter: a first [flutter:]
    line, an [assets:] line below it, lines that were read, added or
    inserted, and every required entry among the trimmed lines. *)
Lemma first_pass_shape (d : disk) (lines : list string) :
  exists P F R,
    syncLines d lines = List.filter (keepLine d) (P ++ F :: R)
    /\ forallb (fun l => negb (Str.startsWith l "flutter:")) P = true
    /\ Str.startsWith F "flutter:" = true
    /\ (exists A, In A R /\ Str.startsWith A "  assets:" = true)
    /\ (forall l, In l (P ++ F :: R) ->
          In l lines \/ In l [""; "flutter:"; "  assets:"]
          \/ In l (List.map entryLine (requiredAssets (assets d))))
    /\ (forall r, In r (requiredAssets (assets d)) ->
          In r (List.map Str.trim (P ++ F :: R))).
Proof.
  unfold syncLines. pose proof (locate_decomposition lines) as H.
  destruct (locateFlutter lines) as [lines1 f].
  destruct (locateAssets lines1 f) as [lines2 a].
  destruct H as (P & F & M & A & Q & -> & -> & HP & HF & HA & Hfrom).
  set (lines2 := P ++ F :: M ++ A :: Q) in *.
  set (missing := missingEntries (List.map Str.trim lines2) (requiredAssets (assets d))).
  assert (Hsplit : lines2 = (P ++ F :: M ++ [A]) ++ Q)
    by (subst lines2; by rewrite <- !app_assoc, <- app_comm_cons, <- !app_assoc).
  assert (Hlen : S (length P + 1 + length M) = length (P ++ F :: M ++ [A]))
    by (rewrite length_app; simpl; rewrite length_app; simpl; lia).
  rewrite insertMissing_spec
    by (subst lines2; rewrite length_app; simpl; rewrite length_app; simpl; lia).
  assert (Htake : take (S (length P + 1 + length M)) lines2 = P ++ F :: M ++ [A])
    by (by rewrite Hlen, Hsplit, take_app_length).
  assert (Hdrop : drop (S (length P + 1 + length M)) lines2 = Q)
    by (by rewrite Hlen, Hsplit, drop_app_length).
  rewrite Htake, Hdrop. fold missing. clear Htake Hdrop Hlen Hsplit.
  exists P, F, (M ++ A :: List.map entryLine missing ++ Q).
  split; [by rewrite <- !app_assoc, <- app_comm_cons, <- !app_assoc |].
  split; [done |]. split; [done |].
  split; [exists A; split; [apply in_app_iff; right; by left | done] |].
  split.
  - intros l Hl.
    assert (Hcases : In l lines2 \/ In l (List.map entryLine missing)).
    { subst lines2. clear Hfrom. in_cases. }
    destruct Hcases as [Hl2 | Hm].
    + destruct (Hfrom l Hl2); tauto.
    + right. right. apply in_map_iff in Hm as (r & <- & [Hr _]%filter_In).
      by apply in_map.
  - intros r Hr.
    destruct (Str.includes (List.map Str.trim lines2) r) eqn:Hinc.
    + apply includes_spec, in_map_iff in Hinc as (l & <- & Hl).
      apply in_map. subst lines2. clear Hfrom. in_cases.
    + destruct (requiredAssets_form _ _ Hr) as [rel ->].
      rewrite <- (trim_entryLine rel). apply in_map.
      assert (In (manifestEntry rel) missing)
        by (apply filter_In; split; [done | by rewrite Hinc]).
      apply (in_map entryLine) in H. clear Hfrom. in_cases.
Qed.

Lemma filter_idem {A} (p : A -> bool) (l : list A) :
  List.filter p (List.filter p l) = List.filter p l.
Proof.
  induction l as [|x l IH]; [done |]. simpl.
  destruct (p x) eqn:Hp; simpl; by rewrite ?Hp, IH.
Qed.

Lemma filter_none {A} (p : A -> bool) (l : list A) :
  (forall x, In x l -> p x = false) -> List.filter p l = [].
Proof.
  induction l as [|x l IH]; [done |]. intros H. simpl.
  rewrite (H x) by (by left). apply IH. intros y Hy. apply H. by right.
Qed.

(** Run on the lines a first pass wrote, the synchronizer finds both
    markers, inserts only entries that the filter removes again, and so
    returns the lines it was given. *)
Lemma second_pass (d d2 : disk) (P R : list string) (F : string) :
  let X := P ++ F :: R in
  let required := requiredAssets (assets d) in
  assets d2 = assets d ->
  (forall l, In l X \/ In l (List.map entryLine required) ->
     keepLine d2 l = keepLine d l) ->
  forallb (fun l => negb (Str.startsWith l "flutter:")) P = true ->
  Str.startsWith F "flutter:" = true ->
  (exists A, In A R /\ Str.startsWith A "  assets:" = true) ->
  (forall r, In r required -> In r (List.map Str.trim X)) ->
  syncLines d2 (List.filter (keepLine d) X) = List.filter (keepLine d) X.
Proof.
  intros X required Hassets Hagree HP HF (A & HAR & HA) Hpresent.
  set (K := keepLine d) in *. set (L1 := List.filter K X).
  assert (HL1 : L1 = List.filter K P ++ F :: List.filter K R).
  { subst L1 X. rewrite List.filter_app. simpl.
    unfold K at 2. by rewrite (keepLine_flutter d F HF). }
  (* the [flutter:] line is found *)
  assert (Hflutter : locateFlutter L1 = (L1, length (List.filter K P))).
  { unfold locateFlutter, findIndex. rewrite HL1.
    rewrite (findIndexFrom_first (fun l => Str.startsWith l "flutter:")); [done | | done].
    apply forallb_forall. intros l [Hl _]%filter_In.
    by apply (proj1 (forallb_forall _ _) HP). }
  (* an [assets:] line is found below it *)
  assert (Hassetsline : exists a2, a2 < length L1
            /\ locateAssets L1 (length (List.filter K P)) = (L1, a2)).
  { unfold locateAssets, findIndex.
    assert (HA' : In A (List.filter K R))
      by (apply filter_In; split; [done | by apply keepLine_assets]).
    apply list_elem_of_In, list_elem_of_lookup in HA' as [k Hk].
    destruct (findIndexFrom_found
                (fun l i => Nat.ltb (length (List.filter K P)) i
                            && Str.startsWith l "  assets:")
                L1 (length (List.filter K P) + S k) A) as [a2 Ha2].
    - rewrite HL1, lookup_app_r by lia.
      replace (length (List.filter K P) + S k - length (List.filter K P)) with (S k)
        by lia.
      done.
    - rewrite HA, andb_true_r. apply Nat.ltb_lt. lia.
    - rewrite Ha2. exists a2. split; [| done].
      apply findIndexFrom_Some in Ha2 as (pre & x & post & -> & -> & _).
      rewrite length_app. simpl. lia. }
  destruct Hassetsline as (a2 & Ha2 & Hlocate).
  unfold syncLines. rewrite Hflutter, Hlocate, insertMissing_spec by done.
  rewrite Hassets. fold required.
  set (missing := missingEntries (List.map Str.trim L1) required).
  assert (HinL1 : forall l, In l L1 -> In l X)
    by (intros l Hl; by apply filter_In in Hl as [? _]).
  rewrite !List.filter_app.
  rewrite (filter_none _ (List.map entryLine missing)).
  - rewrite (List.filter_ext_in (keepLine d2) K (take (S a2) L1)).
    2:{ intros l Hl. apply Hagree. left. apply HinL1.
        apply list_elem_of_In. eapply elem_of_sublist;
          [by apply list_elem_of_In | apply sublist_take]. }
    rewrite (List.filter_ext_in (keepLine d2) K (drop (S a2) L1)).
    2:{ intros l Hl. apply Hagree. left. apply HinL1.
        apply list_elem_of_In. eapply elem_of_sublist;
          [by apply list_elem_of_In | apply sublist_drop]. }
    simpl. rewrite <- List.filter_app, take_drop. apply filter_idem.
  - intros l (r & <- & [Hr Hmiss]%filter_In)%in_map_iff.
    rewrite Hagree by (right; by apply in_map).
    destruct (keepLine d (entryLine r)) eqn:Hkeep; [exfalso | done].
    apply negb_true_iff, includes_false in Hmiss. apply Hmiss.
    destruct (requiredAssets_form _ _ Hr) as [rel ->].
    apply Hpresent, in_map_iff in Hr as (l & Hl & HlX).
    apply in_map_iff. exists l. split; [done |].
    apply filter_In. split; [done |]. fold K.
    unfold K. rewrite <- Hkeep. apply keepLine_trim.
    by rewrite trim_entryLine.
Qed.

Lemma disk_eta (d : disk) :
  d = Disk (assets d) (pubspec d) (outDir d) (outsideAssets d).
Proof. by destruct d. Qed.

Lemma generate_idem (d : disk) :
  generateAllAssetsClasses (generateAllAssetsClasses d) = generateAllAssetsClasses d.
Proof.
  rewrite (disk_eta (generateAllAssetsClasses (generateAllAssetsClasses d))).
  rewrite (generate_again d (generateAllAssetsClasses d)) by done.
  apply (eq_sym (disk_eta (generateAllAssetsClasses d))).
Qed.

Lemma noNewline_entryLine (r : string) :
  noNewline r = true -> noNewline (entryLine r) = true.
Proof. intros Hr. unfold entryLine, noNewline. rewrite all_app. by rewrite andb_true_iff. Qed.

(** On a stable manifest the synchronizer, run after a pass, writes back
    the file it reads. *)
Lemma sync_again (d : disk) :
  manifestStable d = true -> syncPubspecYaml (fullSync d) = fullSync d.
Proof.
  unfold manifestStable, fullSync. intros Hstable.
  destruct (pubspec d) as [content|] eqn:Hcontent.
  2:{ assert (Hd : syncPubspecYaml d = d)
        by (unfold syncPubspecYaml; by rewrite Hcontent).
      rewrite Hd. unfold syncPubspecYaml.
      change (pubspec (generateAllAssetsClasses d)) with (pubspec d).
      by rewrite Hcontent. }
  apply andb_true_iff in Hstable as [Hnl Hinside].
  set (required := requiredAssets (assets d)) in *.
  set (L0 := Str.split "010" content) in *.
  set (d2 := generateAllAssetsClasses (syncPubspecYaml d)).
  assert (Hassets : assets d2 = assets d)
    by (unfold d2, syncPubspecYaml; by rewrite Hcontent).
  assert (Hpub : pubspec d2 = Some (Str.join nl (syncLines d L0)))
    by (unfold d2, syncPubspecYaml; by rewrite Hcontent).
  destruct (first_pass_shape d L0) as (P & F & R & HL1 & HP & HF & HA & Hfrom & Hpresent).
  fold required in Hfrom, Hpresent.
  (* where the lines come from, what they are *)
  assert (Hlines : forall l, In l (P ++ F :: R) \/ In l (List.map entryLine required) ->
            refersInside l = true /\ noNewline l = true).
  { intros l Hl.
    assert (Hcases : In l L0 \/ In l [""; "flutter:"; "  assets:"]
                     \/ In l (List.map entryLine required))
      by (destruct Hl as [Hl | Hl]; [by apply Hfrom | tauto]).
    rewrite forallb_app in Hinside. apply andb_true_iff in Hinside as [Hin0 HinR].
    destruct Hcases as [Hl0 | [Hmark | Hentry]].
    - split; [by apply (proj1 (forallb_forall _ _) Hin0) |].
      by apply (proj1 (forallb_forall _ _) (split_pieces content)).
    - simpl in Hmark. destruct Hmark as [<- | [<- | [<- | []]]]; by split.
    - split; [by apply (proj1 (forallb_forall _ _) HinR) |].
      apply in_map_iff in Hentry as (r & <- & Hr).
      apply noNewline_entryLine. by apply (proj1 (forallb_forall _ _) Hnl). }
  (* the file is read back as the lines written *)
  assert (Hsplit : Str.split "010" (Str.join nl (syncLines d L0)) = syncLines d L0).
  { apply split_join.
    - rewrite HL1, List.filter_app. simpl. rewrite (keepLine_flutter d F HF).
      by destruct (List.filter (keepLine d) P).
    - apply forallb_forall. intros l Hl. rewrite HL1 in Hl.
      apply filter_In in Hl as [Hl _]. apply Hlines. by left. }
  unfold syncPubspecYaml at 1. rewrite Hpub, Hsplit, HL1.
  rewrite (second_pass d d2 P R F); try done.
  - rewrite <- HL1. rewrite (disk_eta d2) at 2. by rewrite Hpub.
  - intros l Hl. apply keepLine_inside; [done | by apply Hlines].
Qed.

(** C4, as the source has it: when no directory path holds a line feed and
    the lines of the manifest and the entries of the directories all refer
    inside [assets/], a second pass over the result of a first one changes
    nothing: the manifest and every file of the output directory are the
    same, byte for byte. *)
Theorem second_pass_changes_nothing (d : disk) :
  manifestStable d = true -> fullSync (fullSync d) = fullSync d.
Proof.
  intros Hstable. unfold fullSync at 1. rewrite sync_again by done.
  apply generate_idem.
Qed.

Lemma second_pass_changes_nothing_witness :
  manifestStable sampleDisk = true
  /\ fullSync (fullSync sampleDisk) = fullSync sampleDisk.
Proof.
  split; [reflexivity |].
  apply (second_pass_changes_nothing sampleDisk). reflexivity.
Defined.

(** C4 as stated fails: the entry of a directory whose name holds a line
    feed is written on two lines, is not recognised when the file is read
    again, and is inserted once more by every pass. *)
Lemma line_feed_breaks_second_pass :
  ~ (forall d, fullSync (fullSync d) = fullSync d).
Proof.
  intros H. specialize (H lineFeedDisk).
  apply (f_equal pubspec) in H. vm_compute in H. discriminate.
Qed.

(** The side conditions of C4 and C3 are needed: a manifest line that
    names a file of the output directory is kept by the pass that deletes
    the file and removed by the next one; and two directories whose paths
    differ by a backslash give two properties of the same value. *)
Lemma stale_reference_breaks_second_pass :
  manifestStable staleReferenceDisk = false
  /\ pubspec (fullSync (fullSync staleReferenceDisk))
     <> pubspec (fullSync staleReferenceDisk).
Proof. split; [reflexivity |]. vm_compute. discriminate. Qed.

Lemma backslash_directories_collide :
  wellNamed (Dir "images" backslashItems) = false
  /\ occurrences "assets/images/a/b/f.png"
       (stringValues (classTree backslashItems "images" "_Image")) = 2.
Proof. split; reflexivity. Qed.

(** * Further properties of the code *)

(** ** [formatPropertyName] *)

Lemma alnum_not_delimiter (c : ascii) :
  Char.isAlnum c = true -> isDelimiter c = false.
Proof. destruct c as [[] [] [] [] [] [] [] []]; vm_compute; congruence. Qed.

Lemma lower_facts (c : ascii) :
  Char.isLower c = true ->
  Char.toLowerCase c = c /\ Char.isDigit c = false /\ Char.isLetter c = true.
Proof. destruct c as [[] [] [] [] [] [] [] []]; vm_compute; intuition congruence. Qed.

Lemma toLowerCase_lower_or_digit (c : ascii) :
  Char.isAlnum c = true ->
  Char.isDigit (Char.toLowerCase c) = false ->
  Char.isLower (Char.toLowerCase c) = true.
Proof. destruct c as [[] [] [] [] [] [] [] []]; vm_compute; congruence. Qed.

Lemma toUpperCase_not_alnum (c : ascii) :
  Char.isAlnum c = false -> Char.isAlnum (Char.toUpperCase c) = false.
Proof. destruct c as [[] [] [] [] [] [] [] []]; vm_compute; congruence. Qed.

Lemma camelize_alnum (s : string) :
  Str.all Char.isAlnum s = true -> camelize false s = s.
Proof.
  induction s as [|c r IH]; [done |]. simpl.
  intros [Hc Hr]%andb_true_iff. by rewrite (alnum_not_delimiter c Hc), IH.
Qed.

Lemma filter_all (p : ascii -> bool) (s : string) :
  Str.all p s = true -> Str.filter p s = s.
Proof.
  induction s as [|c r IH]; [done |]. simpl.
  intros [Hc Hr]%andb_true_iff. by rewrite Hc, IH.
Qed.

Lemma plain_identifier_fixed (s : string) :
  isPlainIdentifier s = true -> formatPropertyName s = s.
Proof.
  unfold isPlainIdentifier.
  intros [[Hfirst Hall]%andb_true_iff Hkey]%andb_true_iff.
  apply negb_true_iff in Hkey.
  destruct s as [|c r]; [done |].
  destruct (lower_facts c Hfirst) as (Hlow & Hdigit & _).
  unfold formatPropertyName.
  rewrite camelize_alnum, filter_all by done.
  cbn [Str.uncapitalize startsWithDigit]. by rewrite Hlow, Hdigit, Hkey.
Qed.

(** Steps 1 to 4 give an alphanumeric text led, unless empty, by a
    lower-case letter. *)
Lemma prefixed_lower (name : string) :
  let s := Str.uncapitalize (Str.filter Char.isAlnum (camelize false name)) in
  let t := if startsWithDigit s then "item" +:+ s else s in
  Str.all Char.isAlnum t = true /\
  (t = "" \/ exists c r, t = String c r /\ Char.isLower c = true).
Proof.
  intros s t. split; [apply (prefixed_shape name) |].
  subst t. destruct (startsWithDigit s) eqn:Hd.
  - right. by exists "i"%char, ("tem" +:+ s).
  - subst s.
    destruct (Str.filter Char.isAlnum (camelize false name)) as [|c r] eqn:E;
      [by left | right].
    pose proof (all_filter Char.isAlnum (camelize false name)) as Ha.
    rewrite E in Ha. simpl in Ha. apply andb_true_iff in Ha as [Hc _].
    simpl in *. eexists _, _. split; [done |].
    by apply toLowerCase_lower_or_digit.
Qed.

Lemma formatPropertyName_plain (name : string) :
  isPlainIdentifier (formatPropertyName name) = true.
Proof.
  unfold formatPropertyName.
  destruct (prefixed_lower name) as [Hall Hshape]. simpl in Hall, Hshape.
  set (t := if startsWithDigit _ then _ else _) in *.
  destruct (Str.includes dartKeywords t) eqn:Hk.
  - apply includes_spec in Hk. pose proof (keyword_suffixed t Hk) as Hnk.
    destruct Hshape as [-> | (c & r & -> & Hc)]; [simpl in Hk; intuition discriminate |].
    rewrite string_app_cons in *. unfold isPlainIdentifier.
    rewrite Hc, Hnk, <- string_app_cons, all_app, Hall. reflexivity.
  - destruct Hshape as [-> | (c & r & -> & Hc)]; [reflexivity |].
    unfold isPlainIdentifier. by rewrite Hc, Hall, Hk.
Qed.

(** X1: deriving an identifier from a derived identifier changes nothing. *)
Theorem formatPropertyName_idempotent (name : string) :
  formatPropertyName (formatPropertyName name) = formatPropertyName name.
Proof. apply plain_identifier_fixed, formatPropertyName_plain. Qed.

(** X2: a name that already is an identifier (lower-case first letter,
    alphanumeric, not reserved) is returned as it is, and every result is
    of this kind. *)
Theorem formatPropertyName_keeps_identifiers (name : string) :
  (isPlainIdentifier name = true -> formatPropertyName name = name)
  /\ isPlainIdentifier (formatPropertyName name) = true.
Proof. split; [apply plain_identifier_fixed | apply formatPropertyName_plain]. Qed.

Lemma formatPropertyName_keeps_identifiers_witness :
  isPlainIdentifier "userAvatar2" = true
  /\ formatPropertyName "userAvatar2" = "userAvatar2".
Proof.
  split; [reflexivity |].
  apply (formatPropertyName_keeps_identifiers "userAvatar2"). reflexivity.
Defined.

Lemma camelize_no_alnum (s : string) (afterRun : bool) :
  Str.all (fun c => negb (Char.isAlnum c)) s = true ->
  Str.filter Char.isAlnum (camelize afterRun s) = "".
Proof.
  revert afterRun. induction s as [|c r IH]; intros afterRun; [done |]. simpl.
  intros [Hc Hr]%andb_true_iff. apply negb_true_iff in Hc.
  destruct (isDelimiter c); [by apply IH |].
  destruct (afterRun && negb (Char.isLineTerminator c)); simpl.
  - rewrite (toUpperCase_not_alnum c Hc). by apply IH.
  - rewrite Hc. by apply IH.
Qed.

(** X3: an ASCII name without any letter or digit (the empty name, a run
    of delimiters, punctuation) gives the identifier [unknown].  The name
    is taken in ASCII because upper-casing a captured character outside
    ASCII may produce letters. *)
Theorem formatPropertyName_unknown (name : string) :
  Str.all isAsciiChar name = true ->
  Str.all (fun c => negb (Char.isAlnum c)) name = true ->
  formatPropertyName name = "unknown".
Proof.
  intros _ H. unfold formatPropertyName. by rewrite camelize_no_alnum.
Qed.

Lemma formatPropertyName_unknown_witness :
  Str.all isAsciiChar "__-.(" = true
  /\ Str.all (fun c => negb (Char.isAlnum c)) "__-.(" = true
  /\ formatPropertyName "__-.(" = "unknown".
Proof.
  split; [reflexivity |]. split; [reflexivity |].
  apply (formatPropertyName_unknown "__-.("); reflexivity.
Defined.

(** What is left of a text once everything but letters and digits is
    stripped is a name the first replacement has nothing to change in. *)
Lemma afterCamelCase_filter (text : string) :
  afterCamelCase text = formatPropertyName (Str.filter Char.isAlnum text).
Proof.
  unfold formatPropertyName, afterCamelCase.
  rewrite (camelize_alnum (Str.filter Char.isAlnum text)) by apply all_filter.
  by rewrite (filter_all Char.isAlnum (Str.filter Char.isAlnum text))
    by apply all_filter.
Qed.

Lemma plain_wellFormed (s : string) :
  isPlainIdentifier s = true -> wellFormedIdentifier s.
Proof.
  unfold isPlainIdentifier.
  intros [[Hfirst Hall]%andb_true_iff Hkey%negb_true_iff]%andb_true_iff.
  destruct s as [|c r]; [done |].
  repeat split; [discriminate | | done | done].
  exists c, r. split; [done |]. by apply lower_facts.
Qed.

(** X28: [formatPropertyName] is its first replacement followed by the
    steps [afterCamelCase], and these make, out of any text whatever, a
    well-formed identifier that [formatPropertyName] returns as it is.
    Everything that is no ASCII letter or digit is stripped after the
    upper-casing, so this holds whatever the first replacement puts in
    place of a captured character. *)
Theorem afterCamelCase_wellFormed (text : string) :
  formatPropertyName text = afterCamelCase (camelize false text)
  /\ wellFormedIdentifier (afterCamelCase text)
  /\ formatPropertyName (afterCamelCase text) = afterCamelCase text.
Proof.
  split; [reflexivity |].
  rewrite afterCamelCase_filter.
  split; [apply plain_wellFormed | apply plain_identifier_fixed];
    apply formatPropertyName_plain.
Qed.

Lemma camelize_hyphenate (s : string) (afterRun : bool) :
  camelize afterRun (hyphenate s) = camelize afterRun s.
Proof.
  revert afterRun. induction s as [|c r IH]; intros afterRun; [done |].
  unfold hyphenate in *. simpl. destruct (isDelimiter c) eqn:Hc.
  - change (isDelimiter "-") with true. cbv iota. apply IH.
  - rewrite Hc. by rewrite !IH.
Qed.

(** X4: which of [-] and [_] separates the parts of a name makes no
    difference to the identifier: sibling names that differ in this only
    share one identifier. *)
Theorem formatPropertyName_delimiters (name : string) :
  formatPropertyName (hyphenate name) = formatPropertyName name.
Proof. unfold formatPropertyName. by rewrite camelize_hyphenate. Qed.

(** ** [stripExtension] *)

Lemma dotted_not_extension_tail (b ext : string) :
  isExtensionTail (b +:+ "." +:+ ext) = false.
Proof.
  assert (H : Str.all (fun c => negb (Char.eqb c "/" || Char.eqb c "."))
                (b +:+ "." +:+ ext) = false).
  { rewrite all_app. change ("." +:+ ext) with (String "."%char ext).
    simpl. apply andb_false_r. }
  unfold isExtensionTail. rewrite H. by destruct (b +:+ "." +:+ ext).
Qed.

Lemma stripExtension_last (base ext : string) :
  isExtensionTail ext = true -> stripExtension (base +:+ "." +:+ ext) = base.
Proof.
  intros Hext. induction base as [|c b IH].
  - change ("" +:+ "." +:+ ext) with (String "."%char ext). simpl. by rewrite Hext.
  - rewrite string_app_cons. simpl.
    by rewrite dotted_not_extension_tail, andb_false_r, IH.
Qed.

(** X5: the last extension of a file name, and only it, is removed
    ([a.tar.gz] gives [a.tar]); two files of one directory that differ in
    their last extension only therefore get the same property name. *)
Theorem stripExtension_last_extension (base ext ext' : string) :
  isExtensionTail ext = true -> isExtensionTail ext' = true ->
  stripExtension (base +:+ "." +:+ ext) = base
  /\ formatPropertyName (stripExtension (base +:+ "." +:+ ext))
     = formatPropertyName (stripExtension (base +:+ "." +:+ ext')).
Proof. intros H H'. by rewrite !stripExtension_last. Qed.

Lemma stripExtension_last_extension_witness :
  stripExtension "a.tar.gz" = "a.tar"
  /\ formatPropertyName (stripExtension "logo.png")
     = formatPropertyName (stripExtension "logo.svg").
Proof.
  split.
  - apply (stripExtension_last_extension "a.tar" "gz" "gz"); reflexivity.
  - apply (stripExtension_last_extension "logo" "png" "svg"); reflexivity.
Defined.

(** X6: a name without a dot, and a name that ends in a dot, have no
    extension to remove. *)
Theorem stripExtension_nothing_to_strip (name : string) :
  (Str.all (fun c => negb (Char.eqb c ".")) name = true -> stripExtension name = name)
  /\ stripExtension (name +:+ ".") = name +:+ ".".
Proof.
  split.
  - induction name as [|c r IH]; [done |]. simpl.
    intros [Hc Hr]%andb_true_iff. apply negb_true_iff in Hc.
    by rewrite Hc, IH.
  - induction name as [|c r IH]; [done |].
    rewrite string_app_cons. simpl.
    pose proof (dotted_not_extension_tail r "") as Htail.
    change (r +:+ "." +:+ "") with (r +:+ ".") in Htail.
    by rewrite Htail, andb_false_r, IH.
Qed.

Lemma stripExtension_nothing_to_strip_witness :
  stripExtension "Makefile" = "Makefile".
Proof. apply (stripExtension_nothing_to_strip "Makefile"). reflexivity. Defined.

(** ** The class tree *)

Lemma listed_file_form (item : node) (items : list node) :
  In item (List.filter isListedFile items) ->
  exists f, item = File f /\ In (File f) items /\ Str.startsWith f "." = false.
Proof.
  intros [Hin Hlisted]%filter_In. destruct item as [f | d kids]; [| done].
  exists f. repeat split; [done |].
  unfold isListedFile in Hlisted. simpl in Hlisted. by apply negb_true_iff.
Qed.

Lemma listed_dir_form (item : node) (items : list node) :
  In item (List.filter isListedDir items) ->
  exists d kids, item = Dir d kids /\ In (Dir d kids) items /\ isVariantName d = false.
Proof.
  intros [Hin Hlisted]%filter_In. destruct item as [f | d kids]; [done |].
  exists d, kids. repeat split; [done |].
  unfold isListedDir in Hlisted. simpl in Hlisted. by apply negb_true_iff.
Qed.

Lemma values_are_files (dir : node) :
  forall rel cls v,
    In v (stringValues (classesOf dir rel cls)) ->
    exists ds f, assetFile (children dir) ds f
                 /\ Str.startsWith f "." = false
                 /\ v = assetValue (descend rel ds) f.
Proof.
  induction dir as [name | name items IH] using node_nested_ind;
    intros rel cls v; [done |].
  rewrite stringValues_classesOf, in_app_iff.
  intros [(file & <- & Hfile)%in_map_iff | (item & Hitem & Hv)%in_flat_map].
  - apply listed_file_form in Hfile as (f & -> & Hin & Hdot).
    exists [], f. split; [by apply assetFile_here | done].
  - pose proof Hitem as Hitem'. apply filter_In in Hitem' as [Hin' _].
    apply (proj1 (List.Forall_forall _ _) IH item Hin') in Hv
      as (ds & f & Hfile & Hdot & ->).
    apply listed_dir_form in Hitem as (d & kids & -> & Hin & Hvar).
    exists (d :: ds), f. split; [by apply (assetFile_below _ d kids) | done].
Qed.

(** X7: every string-valued property of a category stands for a file that
    is there: a regular file, not a dot file, reached through non-variant
    directories, with the value [assets/<relativePath>/<filename>]. *)
Theorem emitted_values_are_files (items : list node) (rel cls v : string) :
  In v (stringValues (classTree items rel cls)) ->
  exists ds f, assetFile items ds f
               /\ Str.startsWith f "." = false
               /\ v = assetValue (descend rel ds) f.
Proof. apply (values_are_files (Dir "" items)). Qed.

Lemma emitted_values_are_files_witness :
  exists ds f,
    assetFile [File "logo.png"; Dir "icons" [File "user.svg"]] ds f
    /\ Str.startsWith f "." = false
    /\ "assets/images/icons/user.svg" = assetValue (descend "images" ds) f.
Proof.
  apply (emitted_values_are_files
           [File "logo.png"; Dir "icons" [File "user.svg"]] "images" "_Image").
  right. left. reflexivity.
Defined.

Lemma classesOf_head (name : string) (items : list node) (rel cls : string) :
  exists ms rest, classesOf (Dir name items) rel cls = DartClass cls ms :: rest.
Proof. rewrite classesOf_unfold. by eexists _, _. Qed.

Lemma class_properties_resolve (dir : node) :
  forall rel cls c type name,
    In c (classesOf dir rel cls) ->
    In (ClassProperty type name) (members c) ->
    exists c', In c' (classesOf dir rel cls) /\ className c' = type.
Proof.
  induction dir as [dname | dname items IH] using node_nested_ind;
    intros rel cls c type name; [done |].
  rewrite classesOf_unfold. intros [<- | Hc] Hm.
  - simpl in Hm. apply in_app_iff in Hm as [Hm | Hm].
    + apply in_map_iff in Hm as (item & [= <- <-] & Hitem).
      pose proof Hitem as Hin. apply listed_dir_form in Hin as (d & kids & -> & _ & _).
      destruct (classesOf_head d kids (nestedRelativePath rel d)
                  (nestedClassName cls d)) as (ms & rest & Hhead).
      exists (DartClass (nestedClassName cls d) ms). split; [| done].
      right. apply in_flat_map. exists (Dir d kids). split; [done |].
      change (In (DartClass (nestedClassName cls d) ms)
                 (classesOf (Dir d kids) (nestedRelativePath rel d)
                            (nestedClassName cls d))).
      rewrite Hhead. by left.
    + by apply in_map_iff in Hm as (file & [=] & _).
  - apply in_flat_map in Hc as (item & Hitem & Hc).
    pose proof Hitem as Hin. apply filter_In in Hin as [Hin _].
    destruct (proj1 (List.Forall_forall _ _) IH item Hin _ _ _ _ _ Hc Hm)
      as (c' & Hc' & Hname).
    exists c'. split; [| done]. right. apply in_flat_map. by exists item.
Qed.

(** X8: every class-valued property of a generated class has, as its
    type, the name of a class generated in the same text. *)
Theorem class_properties_have_classes
    (items : list node) (rel cls : string) (c : dartClass) (type name : string) :
  In c (classTree items rel cls) ->
  In (ClassProperty type name) (members c) ->
  exists c', In c' (classTree items rel cls) /\ className c' = type.
Proof. apply (class_properties_resolve (Dir "" items)). Qed.

Lemma class_properties_have_classes_witness :
  exists c',
    In c' (classTree [Dir "icons" [File "user.svg"]] "images" "_Image")
    /\ className c' = "_ImageIcons".
Proof.
  apply (class_properties_have_classes
           [Dir "icons" [File "user.svg"]] "images" "_Image"
           (DartClass "_Image" [ClassProperty "_ImageIcons" "icons"])
           "_ImageIcons" "icons").
  - left. reflexivity.
  - left. reflexivity.
Defined.

Lemma class_names_extend (dir : node) :
  forall rel cls c,
    In c (classesOf dir rel cls) -> exists suffix, className c = cls +:+ suffix.
Proof.
  induction dir as [dname | dname items IH] using node_nested_ind;
    intros rel cls c; [done |].
  rewrite classesOf_unfold. intros [<- | (item & [Hin _]%filter_In & Hc)%in_flat_map].
  - exists "". simpl. by rewrite string_app_nil_r.
  - apply (proj1 (List.Forall_forall _ _) IH item Hin) in Hc as [suffix ->].
    exists (Str.capitalize (nodeName item) +:+ suffix).
    unfold nestedClassName. by rewrite string_app_assoc.
Qed.

Lemma startsWith_prefix (pre rest : string) : Str.startsWith (pre +:+ rest) pre = true.
Proof.
  induction pre as [|c pre IH]; [by destruct rest |].
  rewrite string_app_cons. simpl. unfold Char.eqb. by rewrite Ascii.eqb_refl.
Qed.

(** X9: the classes generated for a category all bear a name that
    extends the name of the category class, and so start with the
    underscore that keeps them private to the library. *)
Theorem generated_classes_private (dir : node) (c : dartClass) :
  In c (classTree (children dir) (nodeName dir) (rootClassName (nodeName dir))) ->
  (exists suffix, className c = rootClassName (nodeName dir) +:+ suffix)
  /\ Str.startsWith (className c) "_" = true.
Proof.
  intros Hc. apply (class_names_extend (Dir "" (children dir))) in Hc as [suffix Hc].
  split; [by exists suffix |]. rewrite Hc. unfold rootClassName.
  rewrite string_app_assoc. apply startsWith_prefix.
Qed.

Lemma generated_classes_private_witness :
  Str.startsWith "_ImageIcons" "_" = true.
Proof.
  apply (generated_classes_private
           (Dir "images" [Dir "icons" [File "user.svg"]])
           (DartClass "_ImageIcons"
              [StringProperty "user" "assets/images/icons/user.svg" true])).
  right. left. reflexivity.
Defined.

(** ** The files of the output directory *)

Lemma afterParts_app (file : string) (l1 l2 : list node) (x : option string) :
  afterParts file (l1 ++ l2) x = afterParts file l2 (afterParts file l1 x).
Proof. unfold afterParts. apply foldl_app. Qed.

Lemma afterParts_keeps_file (file : string) (subdirs : list node) (x : option string) :
  is_Some x -> is_Some (afterParts file subdirs x).
Proof.
  unfold afterParts. revert x.
  induction subdirs as [|dir subdirs IH]; intros x Hx; [done |]. simpl.
  apply IH. by destruct (String.eqb _ file).
Qed.

Lemma afterParts_creates_file (file : string) (subdirs : list node) (x : option string) :
  In file (List.map (fun dir => partFileName (nodeName dir)) subdirs) ->
  is_Some (afterParts file subdirs x).
Proof.
  revert x. induction subdirs as [|dir subdirs IH]; intros x; [done |].
  intros [E | Hin].
  - change (dir :: subdirs) with ([dir] ++ subdirs). rewrite afterParts_app.
    apply afterParts_keeps_file. unfold afterParts. simpl.
    by rewrite E, String.eqb_refl.
  - change (dir :: subdirs) with ([dir] ++ subdirs). rewrite afterParts_app.
    by apply IH.
Qed.

(** X10: after a pass the output directory holds a file under every
    emitted name, and [assets_app.dart] holds the aggregator, also when a
    category is itself named [assets_app] and its part file bears that
    name. *)
Theorem emitted_files_present (d : disk) (file : string) :
  let subdirs := List.filter isDirectory (assets d) in
  let after := default ∅ (outDir (generateAllAssetsClasses d)) in
  after !! "assets_app.dart" = Some (mainContent subdirs)
  /\ (In file (generatedFiles subdirs) -> is_Some (after !! file)).
Proof.
  intros subdirs after. subst after. split.
  - rewrite lookup_generated. fold subdirs.
    assert (Hin : In "assets_app.dart" (generatedFiles subdirs)) by (by left).
    unfold isStale. rewrite (proj2 (includes_spec _ _) Hin). cbn [negb andb].
    by rewrite String.eqb_refl.
  - intros Hin. rewrite lookup_generated. fold subdirs.
    unfold isStale. rewrite (proj2 (includes_spec _ _) Hin). cbn [negb andb].
    destruct (String.eqb "assets_app.dart" file) eqn:E; [done |].
    apply afterParts_creates_file.
    destruct Hin as [<- | Hin]; [by rewrite String.eqb_refl in E | done].
Qed.

Lemma emitted_files_present_witness :
  is_Some (default ∅ (outDir (generateAllAssetsClasses sampleDisk)) !! "image.dart").
Proof.
  apply (emitted_files_present sampleDisk "image.dart").
  right. left. reflexivity.
Defined.

(** X11: a part file holds the text of the last category that bears its
    name: of the only one when the part names are distinct, and of the
    later one when two categories share a part name. *)
Theorem part_file_content (d : disk) (pre post : list node) (dir : node) :
  List.filter isDirectory (assets d) = pre ++ dir :: post ->
  (forall other, In other post ->
     partFileName (nodeName other) <> partFileName (nodeName dir)) ->
  partFileName (nodeName dir) <> "assets_app.dart" ->
  default ∅ (outDir (generateAllAssetsClasses d)) !! partFileName (nodeName dir)
  = Some (partContent dir).
Proof.
  intros Hsub Hpost Hname. rewrite lookup_generated, Hsub.
  assert (Hin : In (partFileName (nodeName dir)) (generatedFiles (pre ++ dir :: post))).
  { right. apply in_map_iff. exists dir. split; [done |].
    apply in_app_iff. right. by left. }
  unfold isStale. rewrite (proj2 (includes_spec _ _) Hin). cbn [negb andb].
  destruct (String.eqb_spec "assets_app.dart" (partFileName (nodeName dir)))
    as [E | _]; [by symmetry in E |].
  change (dir :: post) with ([dir] ++ post). rewrite !afterParts_app.
  rewrite afterParts_other.
  - unfold afterParts. simpl. by rewrite String.eqb_refl.
  - intros (other & E & Hother)%in_map_iff. by apply (Hpost other).
Qed.

Lemma part_file_content_witness :
  default ∅ (outDir (generateAllAssetsClasses sampleDisk)) !! "image.dart"
  = Some (partContent (Dir "images" [File "logo.png"; Dir "icons" [File "user.svg"]])).
Proof.
  apply (part_file_content sampleDisk []
           [] (Dir "images" [File "logo.png"; Dir "icons" [File "user.svg"]])).
  - reflexivity.
  - intros other [].
  - discriminate.
Defined.

Lemma dropLast_snoc (r : string) (c : ascii) : Str.dropLast (r +:+ String c "") = r.
Proof.
  induction r as [|x r IH]; [done |].
  rewrite string_app_cons. simpl. rewrite IH. by destruct r.
Qed.

(** X12: appending an [s] to a category name [r] gives the part file
    [r.dart] and the class named after [r]; when [r] itself does not end
    in [s], these are the part file and the class of the category [r] too,
    so that [icon] and [icons] share both.  (A name that ends in [s] loses
    it: [glass] gives [glas.dart], and [glasss] gives [glass.dart].) *)
Theorem plural_category_collides (rootFolder : string) :
  (partFileName (rootFolder +:+ "s") = rootFolder +:+ ".dart"
   /\ rootClassName (rootFolder +:+ "s") = "_" +:+ Str.capitalize rootFolder)
  /\ (Str.endsWith rootFolder "s" = false ->
      partFileName (rootFolder +:+ "s") = partFileName rootFolder
      /\ rootClassName (rootFolder +:+ "s") = rootClassName rootFolder).
Proof.
  unfold partFileName, rootClassName, baseName.
  rewrite endsWith_app, dropLast_snoc. split; [done |].
  by intros ->.
Qed.

Lemma plural_category_collides_witness :
  partFileName "icons" = partFileName "icon".
Proof. apply (plural_category_collides "icon"). reflexivity. Defined.

(** X13: after a pass, the names of the output directory that end in
    [.dart] and hold a file are exactly the emitted names. *)
Theorem dart_files_are_emitted (d : disk) (file : string) :
  Str.endsWith file ".dart" = true ->
  is_Some (default ∅ (outDir (generateAllAssetsClasses d)) !! file)
  <-> In file (generatedFiles (List.filter isDirectory (assets d))).
Proof.
  intros Hdart. rewrite lookup_generated. unfold isStale. rewrite Hdart.
  destruct (Str.includes _ file) eqn:Hinc; cbn [negb andb].
  - apply includes_spec in Hinc. split; [done | intros _].
    destruct (String.eqb "assets_app.dart" file) eqn:E; [done |].
    apply afterParts_creates_file.
    destruct Hinc as [<- | Hin]; [by rewrite String.eqb_refl in E | done].
  - apply includes_false in Hinc. split; [by intros [? [=]] | done].
Qed.

Lemma dart_files_are_emitted_witness :
  is_Some (default ∅ (outDir (generateAllAssetsClasses sampleDisk)) !! "assets_app.dart")
  <-> In "assets_app.dart"
        (generatedFiles (List.filter isDirectory (assets sampleDisk))).
Proof. apply (dart_files_are_emitted sampleDisk "assets_app.dart"). reflexivity. Defined.

(** ** The three shapes of a manifest *)

Lemma findIndexFrom_at {A} (p : A -> nat -> bool) (pre post : list A) (x : A) (i : nat) :
  (forall k y, pre !! k = Some y -> p y (i + k) = false) ->
  p x (i + length pre) = true ->
  findIndexFrom p i (pre ++ x :: post) = Some (i + length pre).
Proof.
  revert i. induction pre as [|y pre IH]; intros i Hpre Hx; simpl.
  - rewrite Nat.add_0_r in *. simpl in Hx. by rewrite Hx.
  - assert (Hy : p y i = false)
      by (specialize (Hpre 0 y eq_refl); by rewrite Nat.add_0_r in Hpre).
    rewrite Hy, IH.
    + f_equal. lia.
    + intros k z Hk. replace (S i + k) with (i + S k) by lia. by apply Hpre.
    + simpl in Hx. by replace (S i + length pre) with (i + S (length pre)) by lia.
Qed.

Lemma findIndexFrom_nowhere {A} (p : A -> nat -> bool) (l : list A) (i : nat) :
  (forall k y, l !! k = Some y -> p y (i + k) = false) ->
  findIndexFrom p i l = None.
Proof.
  revert i. induction l as [|y l IH]; intros i Hl; [done |]. simpl.
  assert (Hy : p y i = false)
    by (specialize (Hl 0 y eq_refl); by rewrite Nat.add_0_r in Hl).
  rewrite Hy. apply IH. intros k z Hk.
  replace (S i + k) with (i + S k) by lia. by apply Hl.
Qed.

Lemma forallb_lookup {A} (p : A -> bool) (l : list A) (k : nat) (y : A) :
  forallb p l = true -> l !! k = Some y -> p y = true.
Proof.
  intros Hall Hk. apply (proj1 (forallb_forall _ _) Hall).
  apply list_elem_of_In, list_elem_of_lookup. by exists k.
Qed.

(** X14: when no line starts with [flutter:], the lines written are, in
    this order: the lines read that the pruning rule keeps; an empty line,
    [flutter:] and [  assets:]; the four-space lines of the required
    entries that no line read shows, in discovery order, those among them
    excepted that the pruning rule removes on the spot. *)
Theorem section_appended_when_absent (d : disk) (lines : list string) :
  forallb (fun l => negb (Str.startsWith l "flutter:")) lines = true ->
  syncLines d lines
  = List.filter (keepLine d) lines ++ newSection
    ++ List.filter (keepLine d)
         (List.map entryLine
            (missingEntries (List.map Str.trim (lines ++ newSection))
                            (requiredAssets (assets d)))).
Proof.
  intros Hnone. unfold syncLines.
  assert (Hflutter : locateFlutter lines = (lines ++ newSection, length lines + 1)).
  { unfold locateFlutter, findIndex. rewrite findIndexFrom_nowhere.
    - f_equal. unfold newSection. rewrite length_app. simpl. lia.
    - intros k y Hk. apply negb_true_iff.
      exact (forallb_lookup (fun l => negb (Str.startsWith l "flutter:"))
               lines k y Hnone Hk). }
  assert (Hassets : locateAssets (lines ++ newSection) (length lines + 1)
                    = (lines ++ newSection, length lines + 2)).
  { unfold locateAssets, findIndex, newSection.
    replace (lines ++ [""; "flutter:"; "  assets:"])
      with ((lines ++ [""; "flutter:"]) ++ "  assets:" :: [])
      by (by rewrite <- app_assoc).
    rewrite findIndexFrom_at.
    - rewrite length_app; simpl; f_equal; lia.
    - intros k y Hk. apply lookup_lt_Some in Hk. rewrite length_app in Hk.
      simpl in Hk. apply andb_false_iff. left. apply Nat.ltb_ge. lia.
    - rewrite length_app. simpl. apply andb_true_iff. split; [| done].
      apply Nat.ltb_lt. lia. }
  rewrite Hflutter, Hassets, insertMissing_spec
    by (unfold newSection; rewrite length_app; simpl; lia).
  replace (S (length lines + 2)) with (length (lines ++ newSection))
    by (unfold newSection; rewrite length_app; simpl; lia).
  rewrite take_ge, drop_ge, app_nil_r by lia.
  rewrite !List.filter_app, <- app_assoc.
  by change (List.filter (keepLine d) newSection) with newSection.
Qed.

Lemma section_appended_when_absent_witness :
  syncLines sampleDisk ["name: app"]
  = List.filter (keepLine sampleDisk) ["name: app"] ++ newSection
    ++ List.filter (keepLine sampleDisk)
         (List.map entryLine
            (missingEntries (List.map Str.trim (["name: app"] ++ newSection))
                            (requiredAssets (assets sampleDisk)))).
Proof. apply (section_appended_when_absent sampleDisk ["name: app"]). reflexivity. Defined.

(** X15: when the first [flutter:] line has no [  assets:] line below
    it, the lines written are, in this order: the lines read above that
    [flutter:] line that the pruning rule keeps; the [flutter:] line; a new
    [  assets:] line; the four-space lines of the required entries that no
    line read shows, in discovery order, those among them excepted that
    the pruning rule removes on the spot; the lines read below the
    [flutter:] line that the pruning rule keeps. *)
Theorem block_inserted_when_absent (d : disk) (P R : list string) (F : string) :
  forallb (fun l => negb (Str.startsWith l "flutter:")) P = true ->
  Str.startsWith F "flutter:" = true ->
  forallb (fun l => negb (Str.startsWith l "  assets:")) R = true ->
  syncLines d (P ++ F :: R)
  = List.filter (keepLine d) P ++ F :: "  assets:"
    :: List.filter (keepLine d)
         (List.map entryLine
            (missingEntries (List.map Str.trim (P ++ F :: "  assets:" :: R))
                            (requiredAssets (assets d))))
    ++ List.filter (keepLine d) R.
Proof.
  intros HP HF HR. unfold syncLines.
  assert (Hflutter : locateFlutter (P ++ F :: R) = (P ++ F :: R, length P)).
  { unfold locateFlutter, findIndex.
    by rewrite (findIndexFrom_first (fun l => Str.startsWith l "flutter:")). }
  assert (Hassets : locateAssets (P ++ F :: R) (length P)
                    = (P ++ F :: "  assets:" :: R, length P + 1)).
  { unfold locateAssets, findIndex. rewrite findIndexFrom_nowhere.
    - f_equal. unfold splice.
      replace (P ++ F :: R) with ((P ++ [F]) ++ R) by (by rewrite <- app_assoc).
      replace (length P + 1) with (length (P ++ [F])) by (rewrite length_app; simpl; lia).
      rewrite take_app_length, drop_app_length. by rewrite <- app_assoc.
    - intros k y Hk. apply andb_false_iff.
      destruct (Nat.ltb_spec (length P) (0 + k)) as [Hlt | Hge]; [right | by left].
      simpl in Hlt. rewrite lookup_app_r in Hk by lia.
      destruct (k - length P) as [|j] eqn:Ej; [lia |]. simpl in Hk.
      apply negb_true_iff.
      exact (forallb_lookup (fun l => negb (Str.startsWith l "  assets:"))
               R j y HR Hk). }
  rewrite Hflutter, Hassets, insertMissing_spec by (rewrite length_app; simpl; lia).
  assert (Hlen : S (length P + 1) = length (P ++ [F; "  assets:"]))
    by (rewrite length_app; simpl; lia).
  assert (Hsplit : P ++ F :: "  assets:" :: R = (P ++ [F; "  assets:"]) ++ R)
    by (by rewrite <- app_assoc).
  assert (Htake : take (S (length P + 1)) (P ++ F :: "  assets:" :: R)
                  = P ++ [F; "  assets:"])
    by (by rewrite Hlen, Hsplit, take_app_length).
  assert (Hdrop : drop (S (length P + 1)) (P ++ F :: "  assets:" :: R) = R)
    by (by rewrite Hlen, Hsplit, drop_app_length).
  rewrite Htake, Hdrop, !List.filter_app. simpl.
  rewrite (keepLine_flutter d F HF). by rewrite <- !app_assoc.
Qed.

Lemma block_inserted_when_absent_witness :
  syncLines sampleDisk (["name: app"] ++ "flutter:" :: ["  uses-material-design: true"])
  = List.filter (keepLine sampleDisk) ["name: app"] ++ "flutter:" :: "  assets:"
    :: List.filter (keepLine sampleDisk)
         (List.map entryLine
            (missingEntries
               (List.map Str.trim
                  (["name: app"] ++ "flutter:" :: "  assets:"
                     :: ["  uses-material-design: true"]))
               (requiredAssets (assets sampleDisk))))
    ++ List.filter (keepLine sampleDisk) ["  uses-material-design: true"].
Proof.
  apply (block_inserted_when_absent sampleDisk ["name: app"]
           ["  uses-material-design: true"] "flutter:"); reflexivity.
Defined.

(** X16: when the first [flutter:] line has an [  assets:] line below
    it, the lines written are, in this order: the lines read down to the
    first such [  assets:] line that the pruning rule keeps; the four-space
    lines of the required entries that no line read shows, in discovery
    order, those among them excepted that the pruning rule removes on the
    spot; the lines read below that [  assets:] line that the pruning rule
    keeps.  No section line is added. *)
Theorem entries_inserted_below_block (d : disk) (P M Q : list string) (F A : string) :
  forallb (fun l => negb (Str.startsWith l "flutter:")) P = true ->
  Str.startsWith F "flutter:" = true ->
  forallb (fun l => negb (Str.startsWith l "  assets:")) M = true ->
  Str.startsWith A "  assets:" = true ->
  syncLines d (P ++ F :: M ++ A :: Q)
  = List.filter (keepLine d) (P ++ F :: M ++ [A])
    ++ List.filter (keepLine d)
         (List.map entryLine
            (missingEntries (List.map Str.trim (P ++ F :: M ++ A :: Q))
                            (requiredAssets (assets d))))
    ++ List.filter (keepLine d) Q.
Proof.
  intros HP HF HM HA. unfold syncLines.
  assert (Hflutter : locateFlutter (P ++ F :: M ++ A :: Q)
                     = (P ++ F :: M ++ A :: Q, length P)).
  { unfold locateFlutter, findIndex.
    by rewrite (findIndexFrom_first (fun l => Str.startsWith l "flutter:")). }
  assert (Hsplit : P ++ F :: M ++ A :: Q = (P ++ F :: M) ++ A :: Q)
    by (by rewrite <- app_assoc).
  assert (Hassets : locateAssets (P ++ F :: M ++ A :: Q) (length P)
                    = (P ++ F :: M ++ A :: Q, length P + 1 + length M)).
  { unfold locateAssets, findIndex. rewrite Hsplit at 1. rewrite findIndexFrom_at.
    - rewrite length_app; simpl; f_equal; lia.
    - intros k y Hk. apply andb_false_iff.
      destruct (Nat.ltb_spec (length P) (0 + k)) as [Hlt | Hge]; [right | by left].
      simpl in Hlt. rewrite lookup_app_r in Hk by lia.
      destruct (k - length P) as [|j] eqn:Ej; [lia |]. simpl in Hk.
      apply negb_true_iff.
      exact (forallb_lookup (fun l => negb (Str.startsWith l "  assets:"))
               M j y HM Hk).
    - rewrite length_app. simpl. rewrite HA, andb_true_r. apply Nat.ltb_lt. lia. }
  rewrite Hflutter, Hassets, insertMissing_spec
    by (rewrite length_app; simpl; rewrite length_app; simpl; lia).
  assert (Hlen : S (length P + 1 + length M) = length (P ++ F :: M ++ [A]))
    by (rewrite length_app; simpl; rewrite length_app; simpl; lia).
  assert (Hsplit' : P ++ F :: M ++ A :: Q = (P ++ F :: M ++ [A]) ++ Q)
    by (by rewrite <- !app_assoc, <- app_comm_cons, <- !app_assoc).
  assert (Htake : take (S (length P + 1 + length M)) (P ++ F :: M ++ A :: Q)
                  = P ++ F :: M ++ [A])
    by (by rewrite Hlen, Hsplit', take_app_length).
  assert (Hdrop : drop (S (length P + 1 + length M)) (P ++ F :: M ++ A :: Q) = Q)
    by (by rewrite Hlen, Hsplit', drop_app_length).
  by rewrite Htake, Hdrop, !List.filter_app.
Qed.

Lemma entries_inserted_below_block_witness :
  syncLines sampleDisk
    (["name: app"] ++ "flutter:" :: ["  uses-material-design: true"]
       ++ "  assets:" :: ["    - assets/images/"])
  = List.filter (keepLine sampleDisk)
      (["name: app"] ++ "flutter:" :: ["  uses-material-design: true"] ++ ["  assets:"])
    ++ List.filter (keepLine sampleDisk)
         (List.map entryLine
            (missingEntries
               (List.map Str.trim
                  (["name: app"] ++ "flutter:" :: ["  uses-material-design: true"]
                     ++ "  assets:" :: ["    - assets/images/"]))
               (requiredAssets (assets sampleDisk))))
    ++ List.filter (keepLine sampleDisk) ["    - assets/images/"].
Proof.
  apply (entries_inserted_below_block sampleDisk ["name: app"]
           ["  uses-material-design: true"] ["    - assets/images/"]
           "flutter:" "  assets:"); reflexivity.
Defined.

(** ** Where the lines and the entries come from *)

Lemma syncLines_sources (d : disk) (lines : list string) :
  exists lines2 assetsIndex,
    syncLines d lines
    = List.filter (keepLine d)
        (take (S assetsIndex) lines2
           ++ List.map entryLine
                (missingEntries (List.map Str.trim lines2) (requiredAssets (assets d)))
           ++ drop (S assetsIndex) lines2)
    /\ lines `sublist_of` lines2
    /\ (forall l, In l lines2 -> In l lines \/ In l newSection).
Proof.
  unfold syncLines.
  pose proof (locate_decomposition lines) as Hdec.
  pose proof (locateFlutter_spec lines) as H1.
  destruct (locateFlutter lines) as [lines1 f]. destruct H1 as [Hf Hsub1].
  pose proof (locateAssets_spec lines1 f Hf) as H2.
  destruct (locateAssets lines1 f) as [lines2 a]. destruct H2 as [Ha Hsub2].
  destruct Hdec as (P & F & M & A & Q & -> & _ & _ & _ & _ & Hfrom).
  eexists _, a. rewrite insertMissing_spec by done.
  split; [reflexivity |]. split; [by etransitivity | exact Hfrom].
Qed.

(** X17: every line written back passes the pruning rule and is a line
    that was read, one of the three lines of a new section, or the entry
    of a directory that no line of the file read already gave: an entry
    that is there is never inserted again. *)
Theorem written_lines_provenance (d : disk) (lines : list string) (l : string) :
  In l (syncLines d lines) ->
  keepLine d l = true
  /\ (In l lines \/ In l newSection
      \/ exists r, l = entryLine r /\ In r (requiredAssets (assets d))
                   /\ ~ In r (List.map Str.trim lines)).
Proof.
  destruct (syncLines_sources d lines) as (lines2 & a & -> & Hsub & Hfrom).
  intros [Hl Hkeep]%filter_In. split; [done |].
  assert (Hcases : In l lines2
                   \/ In l (List.map entryLine
                              (missingEntries (List.map Str.trim lines2)
                                 (requiredAssets (assets d))))).
  { rewrite !in_app_iff in Hl. destruct Hl as [Hl | [Hl | Hl]]; [left | by right | left].
    - apply list_elem_of_In. eapply elem_of_sublist;
        [by apply list_elem_of_In | apply sublist_take].
    - apply list_elem_of_In. eapply elem_of_sublist;
        [by apply list_elem_of_In | apply sublist_drop]. }
  destruct Hcases as [Hl2 | (r & <- & [Hr Hmiss]%filter_In)%in_map_iff].
  - destruct (Hfrom l Hl2); tauto.
  - right. right. exists r. repeat split; [done |].
    apply negb_true_iff, includes_false in Hmiss. intros Hin. apply Hmiss.
    apply in_map_iff in Hin as (x & <- & Hx). apply in_map.
    apply list_elem_of_In. eapply elem_of_sublist; [by apply list_elem_of_In | done].
Qed.

Lemma written_lines_provenance_witness :
  keepLine sampleDisk "    - assets/images/icons/" = true
  /\ (In "    - assets/images/icons/" sampleManifest
      \/ In "    - assets/images/icons/" newSection
      \/ exists r, "    - assets/images/icons/" = entryLine r
                   /\ In r (requiredAssets (assets sampleDisk))
                   /\ ~ In r (List.map Str.trim sampleManifest)).
Proof.
  apply (written_lines_provenance sampleDisk sampleManifest).
  vm_compute. tauto.
Defined.

Lemma slashes_app (a b : string) : slashes (a +:+ b) = slashes a + slashes b.
Proof.
  induction a as [|c a IH]; [done |]. rewrite string_app_cons. simpl.
  rewrite IH. lia.
Qed.

Lemma required_entry_candidate (d : disk) (r : string) :
  In r (requiredAssets (assets d)) ->
  isPruneCandidate (Str.trim (entryLine r)) = true
  /\ keepLine d (entryLine r) = existsSync d (dirPathStr r).
Proof.
  intros [rel ->]%requiredAssets_form.
  assert (Hc : isPruneCandidate (manifestEntry rel) = true).
  { apply isPruneCandidate_spec. split; [apply startsWith_prefix |].
    unfold manifestEntry. rewrite !slashes_app. simpl. lia. }
  unfold keepLine. by rewrite trim_entryLine, Hc.
Qed.

(** X18: every entry the directory walk asks for reads [- assets/.../] and
    holds two slashes or more, so that, once inserted, it is itself a
    candidate of the pruning rule and stays only if the path it names is
    found. *)
Theorem required_entries_are_candidates (d : disk) (r : string) :
  In r (requiredAssets (assets d)) ->
  isPruneCandidate (Str.trim (entryLine r)) = true
  /\ keepLine d (entryLine r) = existsSync d (dirPathStr r).
Proof. apply required_entry_candidate. Qed.

Lemma required_entries_are_candidates_witness :
  keepLine sampleDisk (entryLine "- assets/images/icons/")
  = existsSync sampleDisk (dirPathStr "- assets/images/icons/").
Proof.
  apply (required_entries_are_candidates sampleDisk "- assets/images/icons/").
  vm_compute. tauto.
Defined.

Lemma scanDirs_entries (dir : node) :
  forall rel r,
    In r (scanDirs dir rel)
    <-> isDirectory dir = true
        /\ exists ds, dirBelow (children dir) ds /\ r = manifestEntry (descend rel ds).
Proof.
  induction dir as [name | name items IH] using node_nested_ind; intros rel r.
  - split; [done | by intros [? _]].
  - rewrite scanDirs_unfold. simpl. split.
    + intros [<- | (item & Hitem & Hr)%in_flat_map].
      * split; [done |]. exists []. split; [constructor | done].
      * pose proof Hitem as Hin. apply filter_In in Hin as [Hin _].
        apply (proj1 (List.Forall_forall _ _) IH item Hin) in Hr
          as (_ & ds & Hds & ->).
        apply listed_dir_form in Hitem as (d & kids & -> & Hd & Hvar).
        split; [done |]. exists (d :: ds). split; [| done].
        by apply (dirBelow_step _ d kids).
    + intros (_ & ds & Hds & ->).
      inversion Hds as [? | ? d kids ds' Hin Hvar Hdeeper]; subst; [by left |].
      right. apply in_flat_map. exists (Dir d kids). split.
      * apply filter_In. split; [done |]. unfold isListedDir. simpl. by rewrite Hvar.
      * apply (proj1 (List.Forall_forall _ _) IH (Dir d kids) Hin).
        split; [done |]. by exists ds'.
Qed.

Lemma required_entries_iff (assetItems : list node) (r : string) :
  In r (requiredAssets assetItems)
  <-> exists cat kids ds,
        In (Dir cat kids) assetItems /\ dirBelow kids ds
        /\ r = manifestEntry (descend cat ds).
Proof.
  unfold requiredAssets. rewrite in_flat_map. split.
  - intros (dir & [Hin Hdir]%filter_In & Hr).
    apply scanDirs_entries in Hr as (_ & ds & Hds & ->).
    destruct dir as [f | cat kids]; [done |]. by exists cat, kids, ds.
  - intros (cat & kids & ds & Hin & Hds & ->).
    exists (Dir cat kids). split; [by apply filter_In |].
    apply scanDirs_entries. split; [done |]. by exists ds.
Qed.

(** X19: the entries the walk asks for are those of the directories of
    the asset root, whatever their name, and of the directories reached
    from one of them through non-variant directories: no more, no less. *)
Theorem required_entries_are_directories (assetItems : list node) (r : string) :
  In r (requiredAssets assetItems)
  <-> exists cat kids ds,
        In (Dir cat kids) assetItems /\ dirBelow kids ds
        /\ r = manifestEntry (descend cat ds).
Proof. apply required_entries_iff. Qed.

(** ** The entries of plainly named directories *)

Lemma plain_char_facts (c : ascii) :
  isPlainChar c = true ->
  isQuote c = false /\ Char.eqb c "/" = false /\ Char.eqb c "092" = false.
Proof. destruct c as [[] [] [] [] [] [] [] []]; vm_compute; intuition congruence. Qed.

Lemma all_weaken (p q : ascii -> bool) (s : string) :
  (forall c, p c = true -> q c = true) -> Str.all p s = true -> Str.all q s = true.
Proof.
  intros Hpq. induction s as [|c r IH]; [done |]. simpl.
  intros [Hc Hr]%andb_true_iff. by rewrite (Hpq c Hc), IH.
Qed.

Lemma plain_name_path (s : string) :
  isPlainName s = true ->
  Str.all isPathChar s = true /\ noSlash s = true
  /\ s <> "" /\ s <> "." /\ s <> "..".
Proof.
  unfold isPlainName.
  intros [[[Hall H0]%andb_true_iff H1]%andb_true_iff H2]%andb_true_iff.
  apply negb_true_iff, String.eqb_neq in H0, H1, H2.
  repeat split; try done.
  - revert Hall. apply all_weaken. intros c Hc.
    destruct (plain_char_facts c Hc) as (Hq & _ & Hb). unfold isPathChar.
    by rewrite Hq, Hb.
  - revert Hall. apply all_weaken. intros c Hc.
    destruct (plain_char_facts c Hc) as (_ & Hs & _). by rewrite Hs.
Qed.

Lemma descend_path_chars (rel : string) (ds : list string) :
  Str.all isPathChar rel = true -> forallb isPlainName ds = true ->
  Str.all isPathChar (descend rel ds) = true.
Proof.
  revert rel. induction ds as [|d ds IH]; intros rel Hrel Hds; [done |].
  simpl in Hds. apply andb_true_iff in Hds as [Hd Hds]. simpl. apply IH; [| done].
  unfold nestedRelativePath. rewrite !all_app, Hrel.
  by rewrite (proj1 (plain_name_path d Hd)).
Qed.

Lemma filter_app_string (p : ascii -> bool) (a b : string) :
  Str.filter p (a +:+ b) = Str.filter p a +:+ Str.filter p b.
Proof.
  induction a as [|c a IH]; [done |]. rewrite string_app_cons. simpl.
  destruct (p c); by rewrite IH.
Qed.

(** The path the pruning rule looks up for the entry of a plain path. *)
Lemma dirPathStr_plain (rel : string) :
  Str.all isPathChar rel = true ->
  dirPathStr (manifestEntry rel) = "assets/" +:+ rel +:+ "/".
Proof.
  intros Hrel.
  assert (Hfwd : forwardSlash rel = rel).
  { apply forwardSlash_id. revert Hrel. apply all_weaken.
    unfold isPathChar. by intros c [_ ?]%andb_true_iff. }
  assert (Hquote : Str.filter (fun c => negb (isQuote c)) rel = rel).
  { apply filter_all. revert Hrel. apply all_weaken.
    unfold isPathChar. by intros c [? _]%andb_true_iff. }
  unfold manifestEntry, dirPathStr. rewrite Hfwd.
  change ("- assets/" +:+ rel +:+ "/")
    with (String "-"%char (String " "%char ("assets/" +:+ rel +:+ "/"))).
  cbv iota beta. rewrite !filter_app_string, Hquote.
  change (Str.filter (fun c => negb (isQuote c)) "assets/") with "assets/".
  change (Str.filter (fun c => negb (isQuote c)) "/") with "/".
  unfold Str.trim.
  change (Str.dropWhile Char.isSpace ("assets/" +:+ rel +:+ "/"))
    with ("assets/" +:+ rel +:+ "/").
  rewrite <- string_app_assoc. by apply dropWhileEnd_last.
Qed.

Lemma split_segment (seg rest : string) :
  noSlash seg = true ->
  Str.split "/" (seg +:+ "/" +:+ rest) = seg :: Str.split "/" rest.
Proof.
  induction seg as [|c seg IH]; [done |]. rewrite noSlash_cons.
  intros [Hc Hseg]%andb_true_iff. apply negb_true_iff in Hc.
  rewrite string_app_cons. simpl. by rewrite Hc, IH.
Qed.

Lemma descend_concat (rel : string) (ds : list string) :
  descend rel ds = rel +:+ concatMap (fun d => "/" +:+ d) ds.
Proof.
  revert rel. induction ds as [|d ds IH]; intros rel.
  - unfold concatMap. simpl. by rewrite string_app_nil_r.
  - simpl. rewrite IH, concatMap_cons. unfold nestedRelativePath.
    by rewrite !string_app_assoc.
Qed.

Lemma split_path (seg : string) (ds : list string) :
  noSlash seg = true -> forallb noSlash ds = true ->
  Str.split "/" (seg +:+ concatMap (fun d => "/" +:+ d) ds +:+ "/")
  = seg :: ds ++ [""].
Proof.
  revert seg. induction ds as [|d ds IH]; intros seg Hseg Hds.
  - unfold concatMap. simpl foldr. rewrite string_app_nil_l.
    change (seg +:+ "/") with (seg +:+ "/" +:+ "").
    by rewrite (split_segment seg "").
  - simpl in Hds. apply andb_true_iff in Hds as [Hd Hds].
    rewrite concatMap_cons, !string_app_assoc, split_segment by done.
    f_equal. by apply IH.
Qed.

Lemma normalizeFrom_plain (segs stack : list string) :
  Forall (fun s => s <> "" /\ s <> "." /\ s <> "..") segs ->
  normalizeFrom stack (segs ++ [""]) = Some (rev stack ++ segs).
Proof.
  intros Hsegs. revert stack.
  induction Hsegs as [|s segs (H0 & H1 & H2) _ IH]; intros stack.
  - simpl. by rewrite app_nil_r.
  - cbn [app normalizeFrom].
    apply String.eqb_neq in H0, H1, H2. rewrite H0, H1, H2. cbn [orb].
    rewrite IH. simpl. by rewrite <- app_assoc.
Qed.

Lemma insideAssets_plain (cat : string) (ds : list string) :
  forallb isPlainName (cat :: ds) = true ->
  insideAssets ("assets/" +:+ descend cat ds +:+ "/") = Some (cat :: ds).
Proof.
  intros Hplain.
  assert (Hall : Forall (fun s => noSlash s = true
                                  /\ s <> "" /\ s <> "." /\ s <> "..") (cat :: ds)).
  { apply List.Forall_forall. intros s Hs.
    apply (proj1 (forallb_forall _ _) Hplain), plain_name_path in Hs. tauto. }
  unfold insideAssets, normalize.
  rewrite descend_concat. change "assets/" with ("assets" +:+ "/").
  rewrite !string_app_assoc, (split_segment "assets") by done.
  rewrite split_path.
  - assert (Hn : normalizeFrom [] (("assets" :: cat :: ds) ++ [""])
                 = Some (rev [] ++ "assets" :: cat :: ds)).
    { apply normalizeFrom_plain. constructor; [done |].
      eapply Forall_impl; [exact Hall |]. by intros s (_ & ? & ? & ?). }
    change (("assets" :: cat :: ds) ++ [""]) with ("assets" :: cat :: ds ++ [""]) in Hn.
    by rewrite Hn.
  - apply Forall_cons_1 in Hall as [[? _] _]. done.
  - apply forallb_forall. intros s Hs. apply Forall_cons_1 in Hall as [_ Hall].
    by apply (proj1 (List.Forall_forall _ _) Hall) in Hs as [? _].
Qed.

Lemma find_named (items : list node) (d : string) (kids : list node) :
  distinct (List.map nodeName items) = true -> In (Dir d kids) items ->
  List.find (fun item => String.eqb (nodeName item) d) items = Some (Dir d kids).
Proof.
  induction items as [|x items IH]; [done |]. simpl.
  intros [Hx Hrest]%andb_true_iff [-> | Hin].
  - simpl. by rewrite String.eqb_refl.
  - destruct (String.eqb_spec (nodeName x) d) as [E | _]; [| by apply IH].
    apply negb_true_iff, includes_false in Hx. exfalso. apply Hx.
    rewrite E. apply in_map_iff. by exists (Dir d kids).
Qed.

Lemma existsIn_dirBelow (items : list node) (ds : list string) (dirOnly : bool) :
  dirBelow items ds ->
  forall name, wellNamed (Dir name items) = true -> existsIn items ds dirOnly = true.
Proof.
  induction 1 as [items | items d kids ds Hin Hvar Hds IH]; intros name Hwn; [done |].
  rewrite wellNamed_unfold in Hwn. apply andb_true_iff in Hwn as [Hentries Hkids].
  unfold wellNamedEntries in Hentries. apply andb_true_iff in Hentries as [Hdist _].
  simpl. rewrite (find_named items d kids) by done.
  apply (IH d). by apply (proj1 (forallb_forall _ _) Hkids) in Hin.
Qed.

(** The entry of a plainly named directory that is there passes the
    pruning rule. *)
Lemma plain_entry_kept (d : disk) (cat : string) (kids : list node) (ds : list string) :
  wellNamed (Dir "assets" (assets d)) = true ->
  In (Dir cat kids) (assets d) -> dirBelow kids ds ->
  forallb isPlainName (cat :: ds) = true ->
  keepLine d (entryLine (manifestEntry (descend cat ds))) = true.
Proof.
  intros Hwn Hin Hds Hplain.
  assert (Hpath : Str.all isPathChar (descend cat ds) = true).
  { simpl in Hplain. apply andb_true_iff in Hplain as [Hcat Hrest].
    apply descend_path_chars; [| done]. by apply plain_name_path. }
  assert (Hr : In (manifestEntry (descend cat ds)) (requiredAssets (assets d)))
    by (apply required_entries_iff; by exists cat, kids, ds).
  destruct (required_entry_candidate d _ Hr) as [_ ->].
  rewrite dirPathStr_plain by done.
  unfold existsSync. rewrite insideAssets_plain by done.
  pose proof Hwn as Hwn'. rewrite wellNamed_unfold in Hwn'.
  apply andb_true_iff in Hwn' as [Hentries Hkids].
  unfold wellNamedEntries in Hentries. apply andb_true_iff in Hentries as [Hdist _].
  simpl. rewrite (find_named (assets d) cat kids) by done.
  apply (existsIn_dirBelow kids ds _ Hds cat).
  by apply (proj1 (forallb_forall _ _) Hkids) in Hin.
Qed.

(** X20: after the synchronizer has run, the manifest holds a line whose
    trimmed text is the entry [- assets/<path>/] of every category and of
    every directory reached from it through non-variant directories,
    provided the names on the path are plain and sibling names are
    distinct. *)
Theorem plain_directories_listed
    (d : disk) (content cat : string) (kids : list node) (ds : list string) :
  pubspec d = Some content ->
  wellNamed (Dir "assets" (assets d)) = true ->
  In (Dir cat kids) (assets d) -> dirBelow kids ds ->
  forallb isPlainName (cat :: ds) = true ->
  pubspec (syncPubspecYaml d)
  = Some (Str.join nl (syncLines d (Str.split "010" content)))
  /\ exists line,
       In line (syncLines d (Str.split "010" content))
       /\ Str.trim line = manifestEntry (descend cat ds).
Proof.
  intros Hcontent Hwn Hin Hds Hplain.
  split; [by apply syncPubspecYaml_pubspec |].
  pose proof (plain_entry_kept d cat kids ds Hwn Hin Hds Hplain) as Hkeep.
  destruct (first_pass_shape d (Str.split "010" content))
    as (P & F & R & -> & _ & _ & _ & _ & Hpresent).
  assert (Hr : In (manifestEntry (descend cat ds)) (requiredAssets (assets d)))
    by (apply required_entries_iff; by exists cat, kids, ds).
  apply Hpresent, in_map_iff in Hr as (line & Hline & HX).
  exists line. split; [| done]. apply filter_In. split; [done |].
  rewrite <- Hkeep. apply keepLine_trim. by rewrite trim_entryLine.
Qed.

Lemma plain_directories_listed_witness :
  exists line,
    In line (syncLines sampleDisk (Str.split "010" (Str.join nl sampleManifest)))
    /\ Str.trim line = manifestEntry (descend "images" ["icons"]).
Proof.
  apply (plain_directories_listed sampleDisk (Str.join nl sampleManifest)
           "images" [File "logo.png"; Dir "icons" [File "user.svg"]] ["icons"]).
  - reflexivity.
  - reflexivity.
  - left. reflexivity.
  - apply (dirBelow_step _ "icons" [File "user.svg"]);
      [right; left; reflexivity | reflexivity | apply dirBelow_here].
  - reflexivity.
Defined.

(** ** More on the coordinator *)

Section CoordinatorBehaviour.

Context {W : Type} (assetsExist : W -> bool) (pass : W -> W * bool).

Implicit Types (s : @coordinator W) (e : @event W).

Lemma run_app s (es1 es2 : list (@event W)) :
  run assetsExist pass s (es1 ++ es2)
  = let '(s1, t1) := run assetsExist pass s es1 in
    let '(s2, t2) := run assetsExist pass s1 es2 in
    (s2, t1 ++ t2).
Proof.
  revert s. induction es1 as [|e es1 IH]; intros s; simpl.
  - by destruct (run assetsExist pass s es2).
  - destruct (step assetsExist pass s e) as [s1 t1]. rewrite IH.
    destruct (run assetsExist pass s1 es1) as [s2 t2].
    destruct (run assetsExist pass s2 es2) as [s3 t3]. by rewrite app_assoc.
Qed.

Lemma burst_state s (bs : list bool) (b : bool) :
  run assetsExist pass s (List.map FileEvent (bs ++ [b])) = (debouncedSync s b, []).
Proof.
  revert s. induction bs as [|x bs IH]; intros s; [done |].
  simpl. by rewrite IH.
Qed.

(** X21: a burst of file events costs one timer: when the timer fires
    after the burst, what happens is what would have happened had the
    last event of the burst come alone. *)
Theorem burst_counts_as_last_event s (bs : list bool) (b : bool) :
  run assetsExist pass s (List.map FileEvent (bs ++ [b]) ++ [DebounceElapsed])
  = run assetsExist pass s [FileEvent b; DebounceElapsed].
Proof.
  rewrite run_app, burst_state.
  change [FileEvent b; DebounceElapsed] with (List.map (@FileEvent W) ([] ++ [b]) ++ [DebounceElapsed]).
  by rewrite run_app, burst_state.
Qed.

(** X22: with [autoSync] off the debounce timer starts no pass and leaves
    the folder alone, while the force command runs its pass all the same
    as soon as the guard is clear and [assets/] exists. *)
Theorem autoSync_gates_timer_only s :
  autoSync s = false ->
  ((step assetsExist pass s DebounceElapsed).2 = []
   /\ world (step assetsExist pass s DebounceElapsed).1 = world s)
  /\ (isSyncing s = false -> assetsExist (world s) = true ->
      exists rest,
        (step assetsExist pass s (ForceGenerate true)).2 = PassStarted :: rest
        /\ world (step assetsExist pass s (ForceGenerate true)).1 = (pass (world s)).1).
Proof.
  intros Hauto. split.
  - simpl. destruct (syncTimer s) as [inWs|]; [| done].
    destruct (isSyncing s); simpl; [done |].
    unfold runFullSync. simpl. by rewrite Hauto.
  - intros Hguard Hassets. simpl. unfold runFullSync.
    rewrite Hauto, Hguard, Hassets. simpl.
    destruct (pass (world s)) as [w' [|]]; by eexists.
Qed.

(** X23: while [assets/] does not exist no event starts a pass, and only
    an edit from outside changes the folder. *)
Theorem no_pass_without_assets s e :
  assetsExist (world s) = false ->
  ~ In PassStarted (step assetsExist pass s e).2
  /\ ((forall w, e <> DiskChanged w) -> world (step assetsExist pass s e).1 = world s).
Proof.
  intros Hassets.
  assert (Hrun : forall s' inWs force, world s' = world s ->
            runFullSync assetsExist pass s' inWs force = (s', [])).
  { intros s' inWs force Hw. unfold runFullSync. rewrite Hw, Hassets. simpl.
    destruct (negb (autoSync s') && negb force); [done |].
    destruct (isSyncing s'); [done |]. by destruct (negb inWs). }
  destruct e as [inWs | | | hasWs | | | w]; simpl.
  - tauto.
  - destruct (syncTimer s) as [inWs|]; [| simpl; tauto].
    destruct (isSyncing s); simpl; [tauto |]. rewrite Hrun by done. simpl. tauto.
  - destruct (guardTimers s); simpl; [tauto |].
    split; [intros [? | []]; discriminate | done].
  - destruct hasWs; [rewrite Hrun by done |]; simpl; tauto.
  - tauto.
  - tauto.
  - split; [tauto |]. intros Hne. by destruct (Hne w).
Qed.

(** X24: a step that starts a pass leaves the folder as the pass left it,
    and the guard set exactly when the pass ran through: after a failure
    the next pass may start at once, after a success only once the guard
    timer has fired. *)
Theorem pass_outcome s e :
  In PassStarted (step assetsExist pass s e).2 ->
  world (step assetsExist pass s e).1 = (pass (world s)).1
  /\ isSyncing (step assetsExist pass s e).1 = (pass (world s)).2
  /\ (step assetsExist pass s e).2
     = if (pass (world s)).2 then [PassStarted; PassSucceeded]
       else [PassStarted; PassFailed; GuardCleared].
Proof.
  assert (Hrun : forall s' inWs force, world s' = world s ->
            In PassStarted (runFullSync assetsExist pass s' inWs force).2 ->
            world (runFullSync assetsExist pass s' inWs force).1 = (pass (world s)).1
            /\ isSyncing (runFullSync assetsExist pass s' inWs force).1 = (pass (world s)).2
            /\ (runFullSync assetsExist pass s' inWs force).2
               = if (pass (world s)).2 then [PassStarted; PassSucceeded]
                 else [PassStarted; PassFailed; GuardCleared]).
  { intros s' inWs force Hw. unfold runFullSync. rewrite Hw.
    destruct (negb (autoSync s') && negb force); [done |].
    destruct (isSyncing s'); [done |]. destruct (negb inWs); [done |].
    destruct (negb (assetsExist (world s))); [done |].
    by destruct (pass (world s)) as [w' [|]]. }
  destruct e as [inWs | | | hasWs | | | w]; simpl; try done.
  - destruct (syncTimer s) as [inWs|]; [| done].
    destruct (isSyncing s); simpl; [done |]. by apply Hrun.
  - destruct (guardTimers s); simpl; [done | by intros [? | []]].
  - destruct hasWs; [by apply Hrun | done].
Qed.


(** X26: in every state the coordinator reaches, one guard timer is
    pending when the guard is set and none when it is clear. *)
Theorem guard_timer_invariant (auto : bool) (w : W) (events : list (@event W)) :
  guardConsistent (run assetsExist pass (initial auto w) events).1.
Proof.
  pose proof (run_sequential assetsExist pass events (initial auto w) eq_refl) as H.
  destruct (run assetsExist pass (initial auto w) events) as [s trace]. apply H.
Qed.

End CoordinatorBehaviour.

Lemma autoSync_gates_timer_only_witness :
  let s := Coordinator false (Some true) 0 false (Some sampleDisk) in
  (step assetsPresent syncPass s DebounceElapsed).2 = []
  /\ world (step assetsPresent syncPass s DebounceElapsed).1 = world s.
Proof.
  intros s. apply (autoSync_gates_timer_only assetsPresent syncPass s). reflexivity.
Defined.

Lemma no_pass_without_assets_witness :
  let s := Coordinator false None 0 true (None : option disk) in
  ~ In PassStarted (step assetsPresent syncPass s (ForceGenerate true)).2.
Proof.
  intros s.
  apply (no_pass_without_assets assetsPresent syncPass s (ForceGenerate true)).
  reflexivity.
Defined.

Lemma pass_outcome_witness :
  let s := Coordinator false None 0 true (Some sampleDisk) in
  isSyncing (step assetsPresent syncPass s (ForceGenerate true)).1
  = (syncPass (world s)).2.
Proof.
  intros s. apply (pass_outcome assetsPresent syncPass s (ForceGenerate true)).
  left. reflexivity.
Defined.


(** ** The two walks agree *)

Lemma dirPaths_unfold (name : string) (items : list node) :
  dirPaths (Dir name items)
  = [] :: flat_map (fun dir => List.map (cons (nodeName dir)) (dirPaths dir))
                   (List.filter isListedDir items).
Proof.
  rewrite <- (skipping_loop_list isListedDir
    (fun dir => List.map (cons (nodeName dir)) (dirPaths dir))).
  reflexivity.
Qed.

Lemma map_flat_map_Forall {A B C} (h : B -> C) (f : A -> list B) (g : A -> list C)
    (l : list A) :
  Forall (fun x => List.map h (f x) = g x) l ->
  List.map h (flat_map f l) = flat_map g l.
Proof.
  induction 1 as [|x l E _ IH]; [done |]. simpl. by rewrite map_app, E, IH.
Qed.

(** The entries pushed are those of the paths visited. *)
Lemma scanDirs_dirPaths (dir : node) :
  forall rel,
    scanDirs dir rel
    = List.map (fun ds => manifestEntry (descend rel ds)) (dirPaths dir).
Proof.
  induction dir as [name | name items IH] using node_nested_ind; intros rel; [done |].
  rewrite scanDirs_unfold, dirPaths_unfold. simpl. f_equal. symmetry.
  apply map_flat_map_Forall, List.Forall_forall. intros item [Hin _]%filter_In.
  rewrite map_map,
    (proj1 (List.Forall_forall _ _) IH item Hin (nestedRelativePath rel (nodeName item))).
  reflexivity.
Qed.

(** The classes emitted are named after the paths visited. *)
Lemma classesOf_dirPaths (dir : node) :
  forall rel cls,
    List.map className (classesOf dir rel cls)
    = List.map (descendClass cls) (dirPaths dir).
Proof.
  induction dir as [name | name items IH] using node_nested_ind; intros rel cls;
    [done |].
  rewrite classesOf_unfold, dirPaths_unfold. simpl. f_equal.
  transitivity
    (flat_map (fun dir => List.map (descendClass (nestedClassName cls (nodeName dir)))
                            (dirPaths dir))
              (List.filter isListedDir items)).
  - apply map_flat_map_Forall, List.Forall_forall. intros item [Hin _]%filter_In.
    apply (proj1 (List.Forall_forall _ _) IH item Hin).
  - symmetry. apply map_flat_map_Forall, List.Forall_forall. intros item _.
    by rewrite map_map.
Qed.

(** The paths visited are those of the directories reached through
    directories that are no variant directories. *)
Lemma dirPaths_dirBelow (dir : node) :
  forall ds,
    In ds (dirPaths dir) <-> isDirectory dir = true /\ dirBelow (children dir) ds.
Proof.
  induction dir as [name | name items IH] using node_nested_ind; intros ds.
  - split; [done | by intros [? _]].
  - rewrite dirPaths_unfold. simpl. split.
    + intros [<- | (item & Hitem & Hds)%in_flat_map].
      * split; [done | constructor].
      * pose proof Hitem as Hin. apply filter_In in Hin as [Hin _].
        apply in_map_iff in Hds as (ds' & <- & Hds').
        apply (proj1 (List.Forall_forall _ _) IH item Hin) in Hds' as [_ Hbelow].
        apply listed_dir_form in Hitem as (d & kids & -> & Hd & Hvar).
        split; [done |]. by apply (dirBelow_step _ d kids).
    + intros [_ Hds].
      inversion Hds as [? | ? d kids ds' Hin Hvar Hdeeper]; subst; [by left |].
      right. apply in_flat_map. exists (Dir d kids). split.
      * apply filter_In. split; [done |]. unfold isListedDir. simpl. by rewrite Hvar.
      * apply in_map_iff. exists ds'. split; [done |].
        by apply (proj1 (List.Forall_forall _ _) IH (Dir d kids) Hin).
Qed.

(** X27: the code generator and the manifest walk visit the same
    directories of a category in the same order.  [dirPaths] lists the
    directories of the category that are reached through directories that
    are no variant directories, the category first; the manifest entries
    required for the category are the entries of these directories, one
    each and in this order, and the classes generated for it are the
    classes named after these directories, one each and in this order. *)
Theorem walks_visit_same_directories (dir : node) :
  isDirectory dir = true ->
  let name := nodeName dir in
  (forall ds, In ds (dirPaths dir) <-> dirBelow (children dir) ds)
  /\ scanDirs dir name
     = List.map (fun ds => manifestEntry (descend name ds)) (dirPaths dir)
  /\ List.map className (classTree (children dir) name (rootClassName name))
     = List.map (descendClass (rootClassName name)) (dirPaths dir).
Proof.
  destruct dir as [f | name items]; [done |]. intros _ name'. split; [| split].
  - intros ds. rewrite dirPaths_dirBelow. simpl. tauto.
  - apply scanDirs_dirPaths.
  - apply (classesOf_dirPaths (Dir "" items)).
Qed.

Lemma walks_visit_same_directories_witness :
  let dir := Dir "images" [File "logo.png"; Dir "icons" [File "user.svg"]] in
  scanDirs dir "images" = ["- assets/images/"; "- assets/images/icons/"]
  /\ List.map className (classTree (children dir) "images" (rootClassName "images"))
     = ["_Image"; "_ImageIcons"].
Proof.
  intros dir.
  apply (walks_visit_same_directories
           (Dir "images" [File "logo.png"; Dir "icons" [File "user.svg"]])).
  reflexivity.
Defined.
